(** * The prompt library (app.py): store, mutators, query engine, statistics

    A shallow embedding of the logic of [app.py]: the JSON file behind
    [load_prompts]/[save_prompts], the three mutators [add_prompt],
    [update_usage] and [add_rating], the filters and sorts of the
    "Browse Prompts" page, the submit form and the aggregates of the
    "Statistics" page.

    Python values are modelled as follows.
    - [int] is [Z]; [float] is a binary64 number ([PrimFloat.float]); a JSON
      number is either of the two ([pynum]), as [json.load] returns it.
    - [str] is the list of its code points ([pystr]).
    - a prompt (a dict with a fixed set of keys) is the record [Prompt.t].
    - exceptions are the [Raise] results of [res].

    What the program takes from its environment is a parameter of the
    definition that uses it: the time of the clock ([now]), the Unicode
    tables behind [str.lower] and [str.strip], and the summation algorithm
    of the built-in [sum], which differs between versions of Python.  The
    built-in [sorted] is modelled by a stable insertion, which returns the
    list the built-in returns whenever [<] orders the keys, that is unless a
    rating is NaN (see [sorted_reverse]). *)

From Stdlib Require Import ZArith QArith List Bool Lia String Ascii Floats.
From Stdlib Require Import Sorted Permutation.
Import ListNotations.
Local Open Scope Z_scope.

(** ** Exceptions and results *)

Inductive exn := ZeroDivisionError | OverflowError.

Inductive res (A : Type) :=
| Ok (a : A)
| Raise (e : exn).
Arguments Ok {A} a.
Arguments Raise {A} e.

Definition res_bind {A B} (r : res A) (k : A -> res B) : res B :=
  match r with
  | Ok a => k a
  | Raise e => Raise e
  end.

Declare Scope res_scope.
Delimit Scope res_scope with res.
Notation "x <- c ;; k" := (res_bind c (fun x => k))
  (at level 61, c at next level, right associativity) : res_scope.

(** ** Numbers *)

Module Num.

(** A Python number as it occurs in [prompts.json]: [0] is an [int], [4.5] a
    [float]. *)
Inductive pynum :=
| PyInt (z : Z)
| PyFloat (f : float).

(** [float(z)] for an [int]: rounded to nearest, ties to even;
    [OverflowError] when the rounded value is not finite. *)
Definition float_of_int (z : Z) : res float :=
  match binary_normalize prec emax z 0 false with
  | S754_infinity _ => Raise OverflowError
  | sf => Ok (SF2Prim sf)
  end.

(** [a / b] on two [int]s: the correctly rounded quotient. *)
Definition int_true_divide (a b : Z) : res float :=
  if b =? 0 then Raise ZeroDivisionError
  else
    let sgn := xorb (a <? 0) (b <? 0) in
    if a =? 0 then Ok (SF2Prim (S754_zero sgn))
    else
      let '(q, e, l) := SFdiv_core_binary prec emax (Z.abs a) 0 (Z.abs b) 0 in
      match binary_round_aux prec emax sgn q e l with
      | S754_infinity _ => Raise OverflowError
      | sf => Ok (SF2Prim sf)
      end.

Definition to_float (x : pynum) : res float :=
  match x with
  | PyInt z => float_of_int z
  | PyFloat f => Ok f
  end.

Definition is_zero (x : pynum) : bool :=
  match x with
  | PyInt z => z =? 0
  | PyFloat f => PrimFloat.eqb f PrimFloat.zero
  end.

Local Open Scope res_scope.

(** [x * y], [x + y] and [x / y]: exact on two [int]s, binary64 as soon as
    one operand is a [float]. *)
Definition mul (x y : pynum) : res pynum :=
  match x, y with
  | PyInt a, PyInt b => Ok (PyInt (a * b))
  | _, _ => f <- to_float x ;; g <- to_float y ;; Ok (PyFloat (PrimFloat.mul f g))
  end.

Definition add (x y : pynum) : res pynum :=
  match x, y with
  | PyInt a, PyInt b => Ok (PyInt (a + b))
  | _, _ => f <- to_float x ;; g <- to_float y ;; Ok (PyFloat (PrimFloat.add f g))
  end.

Definition truediv (x y : pynum) : res pynum :=
  match x, y with
  | PyInt a, PyInt b => q <- int_true_divide a b ;; Ok (PyFloat q)
  | _, _ =>
      f <- to_float x ;; g <- to_float y ;;
      if is_zero y then Raise ZeroDivisionError
      else Ok (PyFloat (PrimFloat.div f g))
  end.

(** The real number a Python number stands for; comparisons of numbers of
    either kind compare these. *)
Inductive xreal :=
| XNaN
| XInf (negative : bool)
| XFin (q : Q).

Definition dyadic (m e : Z) : Q :=
  if 0 <=? e then inject_Z (m * 2 ^ e) else Qmake m (Z.to_pos (2 ^ (- e))).

(** The number [z * 2^e] as a multiple of [2^-1074], the smallest positive
    binary64 number. *)
Definition scaled (z e : Z) : Z := z * 2 ^ (e + 1074).

Definition sf_value (x : spec_float) : xreal :=
  match x with
  | S754_nan => XNaN
  | S754_infinity s => XInf s
  | S754_zero _ => XFin (inject_Z 0)
  | S754_finite s m e => XFin (dyadic (if s then Zneg m else Zpos m) e)
  end.

Definition value (x : pynum) : xreal :=
  match x with
  | PyInt z => XFin (inject_Z z)
  | PyFloat f => sf_value (Prim2SF f)
  end.

Definition Qltb (p q : Q) : bool := negb (Qle_bool q p).

Definition xltb (a b : xreal) : bool :=
  match a, b with
  | XNaN, _ | _, XNaN => false
  | XInf sa, XInf sb => sa && negb sb
  | XInf sa, XFin _ => sa
  | XFin _, XInf sb => negb sb
  | XFin p, XFin q => Qltb p q
  end.

Definition xeqb (a b : xreal) : bool :=
  match a, b with
  | XNaN, _ | _, XNaN => false
  | XInf sa, XInf sb => Bool.eqb sa sb
  | XFin p, XFin q => Qeq_bool p q
  | _, _ => false
  end.

(** [x < y] and [x == y]: the comparison of the values, for an [int] and a
    [float] too.  On two [float]s these are the comparisons of the hardware
    ([float_ltb_value] and [float_eqb_value] below). *)
Definition ltb (x y : pynum) : bool := xltb (value x) (value y).
Definition eqb (x y : pynum) : bool := xeqb (value x) (value y).

Definition is_nan (x : pynum) : bool :=
  match value x with
  | XNaN => true
  | _ => false
  end.

(** [sum(xs)] adding from the left, starting from the [int] 0. *)
Definition sum_left (xs : list pynum) : res pynum :=
  fold_left (fun acc x => a <- acc ;; add a x) xs (Ok (PyInt 0)).

End Num.
Import Num.

(** ** Strings *)

Module Str.

(** A [str] is the sequence of its code points. *)
Definition pystr := list N.

(** A literal of the source, written in ASCII. *)
Definition str (s : string) : pystr := map N_of_ascii (list_ascii_of_string s).

(** [s == t] *)
Fixpoint eqb (s t : pystr) : bool :=
  match s, t with
  | [], [] => true
  | c :: s', d :: t' => (c =? d)%N && eqb s' t'
  | _, _ => false
  end.

(** [s < t]: code point by code point, a proper prefix being smaller. *)
Fixpoint ltb (s t : pystr) : bool :=
  match s, t with
  | _, [] => false
  | [], _ :: _ => true
  | c :: s', d :: t' => (c <? d)%N || ((c =? d)%N && ltb s' t')
  end.

(** The truth value of a [str]: non-empty. *)
Definition truthy (s : pystr) : bool :=
  match s with
  | [] => false
  | _ :: _ => true
  end.

Fixpoint startswith (s prefix : pystr) : bool :=
  match prefix, s with
  | [], _ => true
  | d :: prefix', c :: s' => (c =? d)%N && startswith s' prefix'
  | _ :: _, [] => false
  end.

(** [sub in s]: [sub] occurs in [s] as a substring. *)
Fixpoint contains (s sub : pystr) : bool :=
  startswith s sub ||
  match s with
  | [] => false
  | _ :: s' => contains s' sub
  end.

(** [s.split(sep)] for a separator of one code point. *)
Fixpoint split (sep : N) (s : pystr) : list pystr :=
  match s with
  | [] => [[]]
  | c :: s' =>
      if (c =? sep)%N then [] :: split sep s'
      else
        match split sep s' with
        | [] => [[c]]
        | w :: ws => (c :: w) :: ws
        end
  end.

(** [lower] and [strip] restricted to ASCII, where they agree with
    [str.lower] and [str.strip]. *)
Definition ascii_lower (s : pystr) : pystr :=
  map (fun c => if ((65 <=? c) && (c <=? 90))%N then (c + 32)%N else c) s.

Definition ascii_isspace (c : N) : bool :=
  (((9 <=? c) && (c <=? 13)) || ((28 <=? c) && (c <=? 32)))%N.

Fixpoint lstrip (s : pystr) : pystr :=
  match s with
  | [] => []
  | c :: s' => if ascii_isspace c then lstrip s' else s
  end.

Definition ascii_strip (s : pystr) : pystr := rev (lstrip (rev (lstrip s))).

End Str.
Import Str.

(** ** Prompts *)

Module Prompt.

Record t := mk {
  id : Z;
  title : pystr;
  category : pystr;
  prompt : pystr;
  author : pystr;
  tags : list pystr;
  rating : pynum;
  votes : Z;
  usage_count : Z;
  created_at : pystr;
  comments : list pystr
}.

(** [p["usage_count"] = n], [p["rating"] = x] and [p["votes"] = n]: the
    other keys keep their values. *)
Definition set_usage_count (p : t) (n : Z) : t :=
  mk (id p) (title p) (category p) (prompt p) (author p) (tags p)
     (rating p) (votes p) n (created_at p) (comments p).

Definition set_rating (p : t) (x : pynum) : t :=
  mk (id p) (title p) (category p) (prompt p) (author p) (tags p)
     x (votes p) (usage_count p) (created_at p) (comments p).

Definition set_votes (p : t) (n : Z) : t :=
  mk (id p) (title p) (category p) (prompt p) (author p) (tags p)
     (rating p) n (usage_count p) (created_at p) (comments p).

End Prompt.

Definition CATEGORIES : list pystr :=
  map str ["API Development"; "Testing"; "Documentation"; "Refactoring";
           "Data Processing"; "DevOps/CI-CD"; "Architecture"; "Debugging";
           "Code Review"; "Other"]%string.

(** ** The store

    The state is the content of [DATA_FILE]: [None] while the file does not
    exist, [Some prompts] once a list has been dumped to it.  [json.dump]
    followed by [json.load] gives back the list it was given; a file that
    does not parse is outside this model. *)

Definition store := option (list Prompt.t).

(** A computation on the store that returns a value or raises; the store it
    leaves behind is the second component in both cases. *)
Definition M (A : Type) := store -> res A * store.

Definition ret {A} (a : A) : M A := fun s => (Ok a, s).

Definition bind {A B} (c : M A) (k : A -> M B) : M B :=
  fun s =>
    match c s with
    | (Ok a, s') => k a s'
    | (Raise e, s') => (Raise e, s')
    end.

Definition lift {A} (r : res A) : M A := fun s => (r, s).

Declare Scope store_scope.
Delimit Scope store_scope with M.
Notation "x <- c ;; k" := (bind c (fun x => k))
  (at level 61, c at next level, right associativity) : store_scope.
Notation "c ;; k" := (bind c (fun _ => k))
  (at level 61, right associativity) : store_scope.

Definition load_prompts : M (list Prompt.t) :=
  fun s =>
    match s with
    | Some prompts => (Ok prompts, s)
    | None => (Ok [], s)
    end.

Definition save_prompts (prompts : list Prompt.t) : M unit :=
  fun _ => (Ok tt, Some prompts).

(** What [load_prompts] returns in a state, and the state a computation
    leaves. *)
Definition collection (s : store) : list Prompt.t :=
  match s with
  | Some prompts => prompts
  | None => []
  end.

Definition exec {A} (c : M A) (s : store) : store := snd (c s).
Definition result {A} (c : M A) (s : store) : res A := fst (c s).

(** ** Mutators *)

Local Open Scope store_scope.

(** [add_prompt]; [now] is [datetime.now().isoformat()]. *)
Definition add_prompt (now : pystr)
    (title category prompt author : pystr) (tags : list pystr) : M Prompt.t :=
  prompts <- load_prompts ;;
  let new_prompt :=
    Prompt.mk (Z.of_nat (List.length prompts) + 1) title category prompt author tags
              (PyInt 0) 0 0 now [] in
  save_prompts (prompts ++ [new_prompt]) ;;
  ret new_prompt.

(** The loop of [update_usage]: the first prompt with the id is updated and
    the loop is left. *)
Fixpoint update_usage_loop (prompt_id : Z) (prompts : list Prompt.t) : list Prompt.t :=
  match prompts with
  | [] => []
  | p :: rest =>
      if Prompt.id p =? prompt_id
      then Prompt.set_usage_count p (Prompt.usage_count p + 1) :: rest
      else p :: update_usage_loop prompt_id rest
  end.

Definition update_usage (prompt_id : Z) : M unit :=
  prompts <- load_prompts ;;
  save_prompts (update_usage_loop prompt_id prompts).

(** [((p["rating"] * p["votes"]) + rating) / (p["votes"] + 1)], as a
    function of the two values read from [p]. *)
Definition new_rating (old_rating : pynum) (old_votes rating : Z) : res pynum :=
  (a <- Num.mul old_rating (PyInt old_votes) ;;
   b <- Num.add a (PyInt rating) ;;
   Num.truediv b (PyInt (old_votes + 1)))%res.

(** The two assignments of the loop body of [add_rating]. *)
Definition rate (p : Prompt.t) (rating : Z) : res Prompt.t :=
  (x <- new_rating (Prompt.rating p) (Prompt.votes p) rating ;;
   let p1 := Prompt.set_rating p x in
   Ok (Prompt.set_votes p1 (Prompt.votes p1 + 1)))%res.

Fixpoint add_rating_loop (prompt_id rating : Z) (prompts : list Prompt.t)
  : res (list Prompt.t) :=
  match prompts with
  | [] => Ok []
  | p :: rest =>
      if Prompt.id p =? prompt_id
      then (p' <- rate p rating ;; Ok (p' :: rest))%res
      else (rest' <- add_rating_loop prompt_id rating rest ;; Ok (p :: rest'))%res
  end.

Definition add_rating (prompt_id rating : Z) : M unit :=
  prompts <- load_prompts ;;
  prompts' <- lift (add_rating_loop prompt_id rating prompts) ;;
  save_prompts prompts'.

Local Close Scope store_scope.

(** ** The query engine of the "Browse Prompts" page *)

(** [sorted(l, key=key, reverse=True)].  The built-in compares keys with [<]
    only.  On keys that [<] orders (strings, integers, floats other than
    NaN) it returns the descending arrangement that keeps elements of equal
    key in their order, also under [reverse=True]; that arrangement is
    unique ([sorted_reverse_unique] below), so the way it is computed does
    not matter and the insertion below returns the same list.  On keys that
    [<] does not order, that is when a rating is NaN, the built-in still
    returns a rearrangement of the list, but which one depends on the runs
    and merges of its algorithm: it can differ from the list computed here
    and need not keep equal keys in their order.  What is stated about the
    order of a list sorted by rating therefore assumes that no rating is
    NaN; only the fact that the result is a rearrangement is stated without
    that. *)
Section Sorted.
Context {A K : Type}.
Variable key : A -> K.
Variable lt : K -> K -> bool.

Fixpoint insert_reverse (x : A) (l : list A) : list A :=
  match l with
  | [] => [x]
  | y :: l' => if lt (key x) (key y) then y :: insert_reverse x l' else x :: l
  end.

Fixpoint sorted_reverse (l : list A) : list A :=
  match l with
  | [] => []
  | x :: l' => insert_reverse x (sorted_reverse l')
  end.
End Sorted.

Section Browse.
(** [str.lower] *)
Variable lower : pystr -> pystr.

Definition filter_category (category_filter : pystr) (prompts : list Prompt.t)
  : list Prompt.t :=
  if negb (Str.eqb category_filter (str "All"))
  then filter (fun p => Str.eqb (Prompt.category p) category_filter) prompts
  else prompts.

Definition search_match (search_lower : pystr) (p : Prompt.t) : bool :=
  Str.contains (lower (Prompt.title p)) search_lower
  || Str.contains (lower (Prompt.prompt p)) search_lower
  || existsb (fun tag => Str.contains (lower tag) search_lower) (Prompt.tags p).

Definition filter_search (search : pystr) (prompts : list Prompt.t)
  : list Prompt.t :=
  if Str.truthy search
  then let search_lower := lower search in
       filter (search_match search_lower) prompts
  else prompts.

Definition sort_prompts (sort_by : pystr) (prompts : list Prompt.t)
  : list Prompt.t :=
  if Str.eqb sort_by (str "Most Recent")
  then sorted_reverse Prompt.created_at Str.ltb prompts
  else if Str.eqb sort_by (str "Most Used")
  then sorted_reverse Prompt.usage_count Z.ltb prompts
  else if Str.eqb sort_by (str "Highest Rated")
  then sorted_reverse Prompt.rating Num.ltb prompts
  else prompts.

(** The list the page displays. *)
Definition browse (search category_filter sort_by : pystr) : M (list Prompt.t) :=
  bind load_prompts (fun prompts =>
  ret (sort_prompts sort_by
         (filter_search search (filter_category category_filter prompts)))).
End Browse.

(** ** The submit form *)

Inductive form_outcome :=
| FormError (message : pystr)
| FormSuccess (new_prompt : Prompt.t).

Section Submit.
(** [str.strip] *)
Variable strip : pystr -> pystr.

(** [[tag.strip() for tag in tags_input.split(",") if tag.strip()]] *)
Definition parse_tags (tags_input : pystr) : list pystr :=
  filter Str.truthy (map strip (Str.split 44 tags_input)).

(** The body of [if submitted:]. *)
Definition submit_prompt (now : pystr)
    (title category prompt author tags_input : pystr) : M form_outcome :=
  if negb (forallb Str.truthy [title; category; prompt; author])
  then ret (FormError (str "Please fill all required fields (*)"))
  else
    let tags := parse_tags tags_input in
    bind (add_prompt now title category prompt author tags) (fun new_prompt =>
    ret (FormSuccess new_prompt)).
End Submit.

(** ** The aggregates of the "Statistics" page *)

(** [p["votes"] > 0] *)
Definition voted (p : Prompt.t) : bool := 0 <? Prompt.votes p.

Section Statistics.
(** The built-in [sum] applied to the numbers a generator yields. *)
Variable builtin_sum : list pynum -> res pynum.

Definition avg_rating (prompts : list Prompt.t) : res pynum :=
  if existsb voted prompts
  then (s <- builtin_sum (map Prompt.rating (filter voted prompts)) ;;
        Num.truediv s (PyInt (Z.of_nat (List.length (filter voted prompts)))))%res
  else Ok (PyInt 0).
End Statistics.

Definition top_used (prompts : list Prompt.t) : list Prompt.t :=
  firstn 5 (sorted_reverse Prompt.usage_count Z.ltb prompts).

Definition top_rated (prompts : list Prompt.t) : list Prompt.t :=
  firstn 5 (sorted_reverse Prompt.rating Num.ltb (filter voted prompts)).

(** ** Notions of the specification *)

(** The largest id of a collection, 0 for the empty one. *)
Definition max_id (prompts : list Prompt.t) : Z :=
  fold_right (fun p m => Z.max (Prompt.id p) m) 0 prompts.

(** The ids are 1, 2, ..., n in this order, as [add_prompt] hands them out. *)
Definition ids_in_sequence (prompts : list Prompt.t) : Prop :=
  map Prompt.id prompts = map Z.of_nat (seq 1 (List.length prompts)).

(** A record of the collection is the first one with the id. *)
Definition first_with_id (prompt_id : Z) (before : list Prompt.t) (p : Prompt.t) : Prop :=
  Forall (fun q => Prompt.id q <> prompt_id) before /\ Prompt.id p = prompt_id.

(** Two records agree on every key but [usage_count]; on every key but
    [rating] and [votes]. *)
Definition same_but_usage_count (p p' : Prompt.t) : Prop :=
  Prompt.id p' = Prompt.id p /\ Prompt.title p' = Prompt.title p
  /\ Prompt.category p' = Prompt.category p /\ Prompt.prompt p' = Prompt.prompt p
  /\ Prompt.author p' = Prompt.author p /\ Prompt.tags p' = Prompt.tags p
  /\ Prompt.rating p' = Prompt.rating p /\ Prompt.votes p' = Prompt.votes p
  /\ Prompt.created_at p' = Prompt.created_at p
  /\ Prompt.comments p' = Prompt.comments p.

Definition same_but_rating_votes (p p' : Prompt.t) : Prop :=
  Prompt.id p' = Prompt.id p /\ Prompt.title p' = Prompt.title p
  /\ Prompt.category p' = Prompt.category p /\ Prompt.prompt p' = Prompt.prompt p
  /\ Prompt.author p' = Prompt.author p /\ Prompt.tags p' = Prompt.tags p
  /\ Prompt.usage_count p' = Prompt.usage_count p
  /\ Prompt.created_at p' = Prompt.created_at p
  /\ Prompt.comments p' = Prompt.comments p.

(** [add_rating(prompt_id, r)] for each rating of a list, in order; and
    [update_usage(prompt_id)] [k] times. *)
Fixpoint add_ratings (prompt_id : Z) (ratings : list Z) : M unit :=
  match ratings with
  | [] => ret tt
  | r :: ratings' =>
      bind (add_rating prompt_id r) (fun _ => add_ratings prompt_id ratings')
  end.

Fixpoint update_usage_times (k : nat) (prompt_id : Z) : M unit :=
  match k with
  | O => ret tt
  | S k' => bind (update_usage prompt_id) (fun _ => update_usage_times k' prompt_id)
  end.

(** The ratings of a list one after the other on one record. *)
Fixpoint rate_all (p : Prompt.t) (ratings : list Z) : res Prompt.t :=
  match ratings with
  | [] => Ok p
  | r :: ratings' => (p' <- rate p r ;; rate_all p' ratings')%res
  end.

(** [mean(r1..rk)] of integer ratings: their exact sum divided by [k]. *)
Definition mean (ratings : list Z) : res pynum :=
  Num.truediv (PyInt (fold_right Z.add 0 ratings))
              (PyInt (Z.of_nat (List.length ratings))).

(** The mean of a list of numbers: their sum divided by their number. *)
Definition mean_of (sum : list pynum -> res pynum) (xs : list pynum) : res pynum :=
  (s <- sum xs ;; Num.truediv s (PyInt (Z.of_nat (List.length xs))))%res.

(** The formula of [add_rating] over the rationals, without rounding, and
    its repetition for a list of ratings. *)
Definition new_rating_exact (old_rating : Q) (old_votes rating : Z) : Q :=
  ((old_rating * inject_Z old_votes + inject_Z rating)
   / inject_Z (old_votes + 1))%Q.

Fixpoint rate_all_exact (ratings : list Z) (rating : Q) (votes : Z) : Q :=
  match ratings with
  | [] => rating
  | r :: ratings' =>
      rate_all_exact ratings' (new_rating_exact rating votes r) (votes + 1)
  end.

(** [term] is a substring of [s] when case is ignored. *)
Definition ci_substring (lower : pystr -> pystr) (term s : pystr) : Prop :=
  exists pre post, lower s = pre ++ lower term ++ post.

(** A record matches a search term. *)
Definition matches (lower : pystr -> pystr) (term : pystr) (p : Prompt.t) : Prop :=
  ci_substring lower term (Prompt.title p)
  \/ ci_substring lower term (Prompt.prompt p)
  \/ exists tag, In tag (Prompt.tags p) /\ ci_substring lower term tag.

(** A list is in descending order of a key, and a list is a stable
    rearrangement of another: elements of equal key come in the order they
    had. *)
Definition descending {A K} (key : A -> K) (lt : K -> K -> bool) (l : list A) : Prop :=
  StronglySorted (fun a b => lt (key a) (key b) = false) l.

Definition stable {A K} (key : A -> K) (eq : K -> K -> bool) (l l' : list A) : Prop :=
  forall k, filter (fun a => eq (key a) k) l' = filter (fun a => eq (key a) k) l.

(** An element is tied with a key: neither key is smaller than the other. *)
Definition tied {A K} (key : A -> K) (lt : K -> K -> bool) (k : K) (a : A) : bool :=
  negb (lt (key a) k) && negb (lt k (key a)).

(** The top lists as the specification words them: sort as the query engine
    does and take the first [n]; for the ratings, after the records with
    [votes == 0] have been left out. *)
Definition topByUsage (coll : list Prompt.t) (n : nat) : list Prompt.t :=
  firstn n (sort_prompts (str "Most Used") coll).

Definition topByRating (coll : list Prompt.t) (n : nat) : list Prompt.t :=
  firstn n (sort_prompts (str "Highest Rated")
              (filter (fun p => negb (Prompt.votes p =? 0)) coll)).

(** ** The cases that are evaluated *)

(** The integers [lo], [lo + 1], ..., [lo + len - 1]. *)
Definition zrange (lo : Z) (len : nat) : list Z :=
  map (fun i => lo + Z.of_nat i) (seq 0 len).

(** The states [(votes, sum, rating)] in which a record that has received up
    to six ratings of 1..5 receives another one. *)
Definition rating_steps : list (Z * Z * Z) :=
  flat_map (fun n =>
    flat_map (fun sum =>
      map (fun r => (n, sum, r)) (zrange 1 5))
      (zrange n (Z.to_nat (4 * n + 1))))
    (zrange 1 6).

(** ** Sample data *)

Definition sample (id : Z) (title category body author : string)
    (tags : list string) (rating : pynum) (votes usage_count : Z)
    (created_at : string) : Prompt.t :=
  Prompt.mk id (str title) (str category) (str body) (str author)
            (map str tags) rating votes usage_count (str created_at) [].

Definition api_client : Prompt.t :=
  sample 1 "API Client Generator" "API Development"
         "Erstelle einen Python REST API Client" "Daniel"
         ["python"; "api"; "rest"]%string (PyFloat 4.5) 2 5 "2024-03-01T09:00:00".

Definition pytest_suite : Prompt.t :=
  sample 2 "Pytest Test Suite Generator" "Testing"
         "Fixtures, Mock und Edge Cases" "Daniel"
         ["python"; "pytest"]%string (PyFloat 5) 1 3 "2024-03-02T09:00:00".

Definition fresh_prompt : Prompt.t :=
  sample 3 "Refactor Helper" "Refactoring" "Extract Method" "Alice"
         ["Refactoring"]%string (PyInt 0) 0 3 "2024-03-03T09:00:00".

Definition library : list Prompt.t := [api_client; pytest_suite; fresh_prompt].

(** A file that holds a single record whose id is 5. *)
Definition lone_five : store :=
  Some [sample 5 "Log Analyzer" "Debugging" "Parse logs" "Bob" [] (PyInt 0) 0 0
               "2024-03-05T09:00:00"].

Definition noon : pystr := str "2024-03-09T12:00:00".

(** ** The numbers of the sidebar and of the "Statistics" page *)

(** [len(prompts)] *)
Definition total_prompts (prompts : list Prompt.t) : Z :=
  Z.of_nat (List.length prompts).

(** [sum(p["usage_count"] for p in prompts)]: a sum of [int]s, exact. *)
Definition total_usage (prompts : list Prompt.t) : Z :=
  fold_left (fun acc p => acc + Prompt.usage_count p) prompts 0.

(** [set(...)] of strings, as the list of its elements without repetition,
    and [len(set(p["author"] for p in prompts))]. *)
Definition pystr_eq_dec : forall s t : pystr, {s = t} + {s <> t} :=
  list_eq_dec N.eq_dec.

Definition distinct (l : list pystr) : list pystr := nodup pystr_eq_dec l.

Definition contributors (prompts : list Prompt.t) : Z :=
  Z.of_nat (List.length (distinct (map Prompt.author prompts))).

(** A [dict] from strings to [int]s: its items in the order in which the
    keys were inserted.  [d.get(k, default)] and [d[k] = v]; an assignment
    to a key that is present keeps its place. *)
Definition dict := list (pystr * Z).

Fixpoint dict_get (d : dict) (k : pystr) (default : Z) : Z :=
  match d with
  | [] => default
  | (k', v) :: d' => if Str.eqb k' k then v else dict_get d' k default
  end.

Fixpoint dict_set (d : dict) (k : pystr) (v : Z) : dict :=
  match d with
  | [] => [(k, v)]
  | (k', v') :: d' =>
      if Str.eqb k' k then (k', v) :: d' else (k', v') :: dict_set d' k v
  end.

(** The counting loops of the page:
    [counts[p[key]] = counts.get(p[key], 0) + 1] for each prompt. *)
Definition count_by (key : Prompt.t -> pystr) (prompts : list Prompt.t) : dict :=
  fold_left (fun counts p => dict_set counts (key p) (dict_get counts (key p) 0 + 1))
            prompts [].

Definition category_counts (prompts : list Prompt.t) : dict :=
  count_by Prompt.category prompts.

Definition author_counts (prompts : list Prompt.t) : dict :=
  count_by Prompt.author prompts.

(** [sorted(counts.items(), key=lambda x: x[1], reverse=True)], and its
    first five items for the contributors. *)
Definition categories_by_count (prompts : list Prompt.t) : list (pystr * Z) :=
  sorted_reverse snd Z.ltb (category_counts prompts).

Definition top_contributors (prompts : list Prompt.t) : list (pystr * Z) :=
  firstn 5 (sorted_reverse snd Z.ltb (author_counts prompts)).

(** ** The buttons of a displayed prompt *)

(** "Copy" and "Submit Rating" on the expander of [prompt]; the rating is one
    of the options 1..5 of the select box. *)
Definition on_copy (prompt : Prompt.t) : M unit :=
  update_usage (Prompt.id prompt).

Definition on_submit_rating (prompt : Prompt.t) (rating : Z) : M unit :=
  add_rating (Prompt.id prompt) rating.

(** ** The seed utility (seed_data.py) *)

(** The code points of a literal written in UTF-8 with sequences of one and
    two bytes, which is all the seed texts contain. *)
Fixpoint utf8_decode (bytes : list N) : pystr :=
  match bytes with
  | [] => []
  | b :: rest =>
      if (b <? 128)%N then b :: utf8_decode rest
      else
        match rest with
        | c :: rest' => ((b - 192) * 64 + (c - 128))%N :: utf8_decode rest'
        | [] => [b]
        end
  end.

Definition utf8 (s : string) : pystr :=
  utf8_decode (map N_of_ascii (list_ascii_of_string s)).

Definition seed_api_client_body : pystr :=
  utf8 "Erstelle einen Python REST API Client mit folgenden Anforderungen:

ARCHITEKTUR:
- BaseClient Klasse mit gemeinsamer Logik
- Spezifische Endpoint-Methoden als Subclass
- Dependency Injection für Configuration

FEATURES:
- Retry Logic mit exponential backoff (tenacity)
- Timeout Configuration
- Request/Response Logging
- Type Hints für alle Methoden
- Pydantic Models für Request/Response

ERROR HANDLING:
- Custom Exceptions (APIError, AuthenticationError, RateLimitError)
- Structured Error Messages mit Context
- Automatic Token Refresh bei 401

TESTING:
- pytest mit responses/httpx-mock
- Fixtures für API Responses
- Edge Cases (Timeout, 5xx, Rate Limit)

CODE QUALITY:
- Black formatiert
- Type Hints
- Docstrings (Google Style)
- Logging statt Print".

Definition seed_data_pipeline_body : pystr :=
  utf8 "Erstelle eine Data Processing Pipeline mit folgender Architektur:

PIPELINE STAGES:
1. Input Stage: Multi-Format Reader (CSV, Excel, JSON, XML)
2. Validation Stage: Schema Validation mit Pydantic
3. Transformation Stage: Business Logic
4. Output Stage: Multi-Format Writer

FEATURES:
- Streaming für große Dateien (nicht alles in Memory)
- Progress Bar (tqdm)
- Partial Resume bei Fehler (Checkpoint-System)
- Parallel Processing (ThreadPoolExecutor/ProcessPoolExecutor)
- Dry-Run Mode für Testing

ERROR HANDLING:
- Validation Errors sammeln (nicht bei erstem Fehler abbrechen)
- Error Report mit Zeilen-Nummern
- Quarantine für fehlerhafte Records
- Retry-Mechanismus für transiente Fehler

MONITORING:
- Structured Logging mit Context
- Metrics (processed, failed, skipped)
- Execution Time Tracking
- Memory Usage Monitoring

CLI:
- argparse mit Subcommands
- Config File Support (YAML/JSON)
- Verbose/Debug Modes".

Definition seed_pytest_suite_body : pystr :=
  utf8 "Generiere eine vollständige Pytest Test Suite für die gegebene Funktion/Klasse:

REQUIREMENTS:
- Fixtures für Setup/Teardown
- Parametrized Tests für verschiedene Inputs
- Edge Cases (None, Empty, Invalid)
- Mock externe Dependencies
- Assert mit aussagekräftigen Messages

COVERAGE:
- Happy Path
- Error Cases
- Boundary Conditions
- Type Validation

STRUCTURE:
- Arrange-Act-Assert Pattern
- Descriptive Test Names (test_should_...)
- Docstrings für komplexe Tests

QUALITY:
- Type Hints
- pytest-cov für Coverage Report
- pytest-mock für Mocking".

Definition seed_cli_tool_body : pystr :=
  utf8 "Erstelle ein Python CLI-Tool mit argparse:

REQUIREMENTS:
- Subcommands für verschiedene Operationen
- Required und Optional Arguments
- Type Validation
- Help Messages
- Config File Support (optional)

FEATURES:
- Verbose/Debug Modes
- Dry-Run Option
- Output Format (JSON, YAML, Table)
- Exit Codes (0=success, 1=error)

ERROR HANDLING:
- Argument Validation
- User-friendly Error Messages
- Logging statt Print

QUALITY:
- Type Hints
- Docstrings
- No hardcoded paths
- Environment-agnostic".

Definition seed_extract_method_body : pystr :=
  utf8 "Refactore die gegebene Funktion durch Extract Method:

GOALS:
- Reduziere Komplexität (max 10 Zeilen pro Funktion)
- Single Responsibility Principle
- Verbessere Lesbarkeit
- Erhöhe Testbarkeit

APPROACH:
- Identifiziere logische Blöcke
- Extrahiere in separate Funktionen
- Aussagekräftige Namen
- Type Hints hinzufügen
- Docstrings für neue Funktionen

PRESERVE:
- Funktionalität (keine Behavior-Änderung)
- Bestehende Tests (sollten weiter funktionieren)
- Public API

IMPROVE:
- Error Handling
- Edge Cases
- Performance (wenn möglich)".

(** [SEED_PROMPTS]; the five [datetime.now().isoformat()] of the literal are
    read from the clock one after the other. *)
Definition SEED_PROMPTS (t1 t2 t3 t4 t5 : pystr) : list Prompt.t :=
  let author := utf8 "Daniel Jährling" in
  [ Prompt.mk 1 (str "API Client Generator") (str "API Development")
      seed_api_client_body author
      (map str ["python"; "api"; "rest"; "client"; "testing"]%string)
      (PyFloat 4.5) 2 5 t1 [];
    Prompt.mk 2 (str "Data Pipeline Builder") (str "Data Processing")
      seed_data_pipeline_body author
      (map str ["python"; "etl"; "pipeline"; "batch"; "data-processing"]%string)
      (PyFloat 5) 3 8 t2 [];
    Prompt.mk 3 (str "Pytest Test Suite Generator") (str "Testing")
      seed_pytest_suite_body author
      (map str ["python"; "testing"; "pytest"; "tdd"; "quality"]%string)
      (PyFloat 0x1.3333333333333p+2) 5 12 t3 [];
    Prompt.mk 4 (str "CLI Tool with argparse") (str "DevOps/CI-CD")
      seed_cli_tool_body author
      (map str ["python"; "cli"; "argparse"; "automation"]%string)
      (PyFloat 0x1.0cccccccccccdp+2) 4 15 t4 [];
    Prompt.mk 5 (str "Refactoring: Extract Method") (str "Refactoring")
      seed_extract_method_body author
      (map str ["refactoring"; "clean-code"; "maintainability"]%string)
      (PyFloat 0x1.2666666666666p+2) 3 7 t5 [] ].

(** [seed_prompts]: the file is opened for writing and the list dumped. *)
Definition seed_prompts (t1 t2 t3 t4 t5 : pystr) : M unit :=
  save_prompts (SEED_PROMPTS t1 t2 t3 t4 t5).

(** ** Notions for the further properties *)

(** A call of one of the three mutators, and a series of calls, each one on
    the file the call before it left. *)
Inductive call :=
| AddPrompt (now title category prompt author : pystr) (tags : list pystr)
| UpdateUsage (prompt_id : Z)
| AddRating (prompt_id rating : Z).

Definition run_call (c : call) (s : store) : store :=
  match c with
  | AddPrompt now title category prompt author tags =>
      exec (add_prompt now title category prompt author tags) s
  | UpdateUsage prompt_id => exec (update_usage prompt_id) s
  | AddRating prompt_id rating => exec (add_rating prompt_id rating) s
  end.

Definition run_calls (calls : list call) (s : store) : store :=
  fold_left (fun s c => run_call c s) calls s.

(** A record is the later state of another one: the same but for counters
    that did not go down and a rating that may differ. *)
Definition later_state (p p' : Prompt.t) : Prop :=
  same_but_rating_votes p (Prompt.set_usage_count p' (Prompt.usage_count p))
  /\ Prompt.votes p <= Prompt.votes p'
  /\ Prompt.usage_count p <= Prompt.usage_count p'.

(** A collection has grown out of another one: the old records are all
    there, at their places and in a later state, followed by new ones. *)
Definition grown_from (old new : list Prompt.t) : Prop :=
  exists kept added, new = kept ++ added /\ Forall2 later_state old kept.

(** The number of records with a given value under a key. *)
Definition occurrences (key : Prompt.t -> pystr) (k : pystr)
    (prompts : list Prompt.t) : Z :=
  Z.of_nat (List.length (filter (fun p => Str.eqb (key p) k) prompts)).

(** Is there a record with the id?  With the author? *)
Definition has_id (prompt_id : Z) (prompts : list Prompt.t) : bool :=
  existsb (fun p => Prompt.id p =? prompt_id) prompts.

Definition has_author (author : pystr) (prompts : list Prompt.t) : bool :=
  existsb (fun p => Str.eqb (Prompt.author p) author) prompts.

(** [sep.join(pieces)] for a separator of one code point. *)
Fixpoint join (sep : N) (pieces : list pystr) : pystr :=
  match pieces with
  | [] => []
  | w :: ws =>
      match ws with
      | [] => w
      | _ :: _ => w ++ sep :: join sep ws
      end
  end.

(** A rating lies between 1 and 5. *)
Definition rating_in_range (x : pynum) : bool :=
  negb (Num.ltb x (PyInt 1)) && negb (Num.ltb (PyInt 5) x).

(** * Properties *)

(** ** The store and the loops of the mutators *)

Lemma load_prompts_spec (s : store) : load_prompts s = (Ok (collection s), s).
Proof. destruct s; reflexivity. Qed.

Lemma update_usage_run (prompt_id : Z) (s : store) :
  update_usage prompt_id s
  = (Ok tt, Some (update_usage_loop prompt_id (collection s))).
Proof. unfold update_usage, bind. rewrite load_prompts_spec. reflexivity. Qed.

Lemma add_rating_run (prompt_id rating : Z) (s : store) :
  add_rating prompt_id rating s
  = match add_rating_loop prompt_id rating (collection s) with
    | Ok prompts' => (Ok tt, Some prompts')
    | Raise e => (Raise e, s)
    end.
Proof.
  unfold add_rating, bind, lift. rewrite load_prompts_spec.
  destruct (add_rating_loop prompt_id rating (collection s)); reflexivity.
Qed.

Lemma add_prompt_run now title category prompt author tags (s : store) :
  let new_prompt :=
    Prompt.mk (Z.of_nat (List.length (collection s)) + 1)
              title category prompt author tags (PyInt 0) 0 0 now [] in
  add_prompt now title category prompt author tags s
  = (Ok new_prompt, Some (collection s ++ [new_prompt])).
Proof. unfold add_prompt, bind. rewrite load_prompts_spec. reflexivity. Qed.

(** Replaces the runs of the mutators in the goal by their outcomes. *)
Ltac run_store :=
  unfold exec, result;
  rewrite ?update_usage_run, ?add_rating_run, ?add_prompt_run.

Section Loops.
Variable prompt_id : Z.

Let absent (l : list Prompt.t) := Forall (fun q => Prompt.id q <> prompt_id) l.

Lemma absent_iff l : absent l <-> ~ In prompt_id (map Prompt.id l).
Proof.
  unfold absent. rewrite Forall_forall, in_map_iff. split.
  - intros H (q & Hq & Hin). exact (H q Hin Hq).
  - intros H q Hin Hq. apply H. exists q. split; assumption.
Qed.

(** An id that occurs has a first occurrence. *)
Lemma first_occurrence l :
  In prompt_id (map Prompt.id l) ->
  exists before p after,
    l = before ++ p :: after /\ first_with_id prompt_id before p.
Proof.
  induction l as [|q l IH]; simpl; [contradiction|].
  intros H. destruct (Z.eq_dec (Prompt.id q) prompt_id) as [Heq|Hne].
  - exists [], q, l. repeat split; [constructor | exact Heq].
  - destruct H as [H|H]; [contradiction|].
    destruct (IH H) as (before & p & after & -> & Hb & Hp).
    exists (q :: before), p, after. repeat split; [|exact Hp].
    constructor; assumption.
Qed.

Lemma update_usage_loop_absent l :
  absent l -> update_usage_loop prompt_id l = l.
Proof.
  induction 1 as [|q l Hq _ IH]; simpl; [reflexivity|].
  apply Z.eqb_neq in Hq. rewrite Hq, IH. reflexivity.
Qed.

Lemma update_usage_loop_first before p after :
  first_with_id prompt_id before p ->
  update_usage_loop prompt_id (before ++ p :: after)
  = before ++ Prompt.set_usage_count p (Prompt.usage_count p + 1) :: after.
Proof.
  intros [Hb Hp]. induction Hb as [|q l Hq _ IH]; simpl.
  - apply Z.eqb_eq in Hp. rewrite Hp. reflexivity.
  - apply Z.eqb_neq in Hq. rewrite Hq, IH. reflexivity.
Qed.

Lemma add_rating_loop_absent rating l :
  absent l -> add_rating_loop prompt_id rating l = Ok l.
Proof.
  induction 1 as [|q l Hq _ IH]; simpl; [reflexivity|].
  apply Z.eqb_neq in Hq. rewrite Hq, IH. reflexivity.
Qed.

Lemma add_rating_loop_first rating before p after :
  first_with_id prompt_id before p ->
  add_rating_loop prompt_id rating (before ++ p :: after)
  = res_bind (rate p rating) (fun p' => Ok (before ++ p' :: after)).
Proof.
  intros [Hb Hp]. induction Hb as [|q l Hq _ IH]; simpl.
  - apply Z.eqb_eq in Hp. rewrite Hp. reflexivity.
  - apply Z.eqb_neq in Hq. rewrite Hq, IH.
    destruct (rate p rating); reflexivity.
Qed.
End Loops.

(** The first record with an id is still the first one after its counters
    have changed. *)
Lemma first_with_id_set_usage_count prompt_id before p n :
  first_with_id prompt_id before p ->
  first_with_id prompt_id before (Prompt.set_usage_count p n).
Proof. intros [Hb Hp]. split; assumption. Qed.

Lemma max_id_in_sequence prompts :
  ids_in_sequence prompts -> max_id prompts = Z.of_nat (List.length prompts).
Proof.
  unfold ids_in_sequence, max_id.
  assert (G : forall l start,
             map Prompt.id l = map Z.of_nat (seq start (List.length l)) ->
             fold_right (fun p m => Z.max (Prompt.id p) m) 0 l
             = match l with
               | [] => 0
               | _ :: _ => Z.of_nat (start + List.length l) - 1
               end).
  { induction l as [|p l IH]; intros start H; [reflexivity|].
    simpl in H. injection H as Hp Hl. simpl fold_right.
    rewrite (IH _ Hl), Hp. destruct l; simpl List.length; lia. }
  intros H. rewrite (G _ _ H). destruct prompts; simpl List.length; lia.
Qed.

Lemma ids_in_sequence_snoc prompts p :
  ids_in_sequence prompts ->
  Prompt.id p = Z.of_nat (List.length prompts) + 1 ->
  ids_in_sequence (prompts ++ [p]).
Proof.
  unfold ids_in_sequence. intros H Hp.
  rewrite map_app, length_app, seq_app, map_app, H. simpl.
  rewrite Hp. do 2 f_equal. lia.
Qed.

(** ** Adding a prompt *)

(** C1 (amended).  After [add_prompt], [load_prompts] returns the former
    collection followed by the new record, so one record more; the new
    record's id is the former number of records plus 1.  When the ids of the
    collection are 1..n in order, as in a collection that only [add_prompt]
    has written, this is the largest id plus 1 (1 for the empty collection)
    and the ids stay in sequence. *)
Theorem add_prompt_then_load now title category prompt author tags (s : store) :
  let prompts := collection s in
  let new_prompt :=
    Prompt.mk (Z.of_nat (List.length prompts) + 1)
              title category prompt author tags (PyInt 0) 0 0 now [] in
  let s' := exec (add_prompt now title category prompt author tags) s in
  result (add_prompt now title category prompt author tags) s = Ok new_prompt
  /\ collection s' = prompts ++ [new_prompt]
  /\ List.length (collection s') = S (List.length prompts)
  /\ Prompt.id new_prompt = Z.of_nat (List.length prompts) + 1
  /\ (prompts = [] -> Prompt.id new_prompt = 1)
  /\ (ids_in_sequence prompts ->
      Prompt.id new_prompt = max_id prompts + 1
      /\ ids_in_sequence (collection s')).
Proof.
  intros prompts new_prompt s'. subst s'. run_store.
  fold prompts. fold new_prompt. simpl.
  repeat split.
  - rewrite length_app. simpl. lia.
  - intros ->. reflexivity.
  - rewrite (max_id_in_sequence _ H). reflexivity.
  - apply ids_in_sequence_snoc; [assumption | reflexivity].
Qed.

Lemma add_prompt_then_load_witness :
  ids_in_sequence library
  /\ Prompt.id (Prompt.mk (Z.of_nat (List.length library) + 1) (str "T")
                  (str "Testing") (str "body") (str "Alice") [str "x"]
                  (PyInt 0) 0 0 noon [])
     = max_id library + 1.
Proof.
  split; [reflexivity|].
  apply (add_prompt_then_load noon (str "T") (str "Testing") (str "body")
           (str "Alice") [str "x"] (Some library)).
  reflexivity.
Defined.

(** C1 as stated fails: in a file whose only record has id 5 the new record
    gets id 2, not 6. *)
Lemma add_prompt_id_is_not_max_plus_one :
  exists new_prompt,
    result (add_prompt noon (str "T") (str "Testing") (str "body") (str "Alice")
              [str "x"]) lone_five = Ok new_prompt
    /\ Prompt.id new_prompt = 2
    /\ max_id (collection lone_five) + 1 = 6
    /\ Prompt.id new_prompt <> max_id (collection lone_five) + 1.
Proof.
  eexists. split; [reflexivity|]. repeat split. discriminate.
Qed.

(** C2 (amended).  The check of the required fields is made by the submit
    form, before [add_prompt] is called: when one of title, category,
    prompt and author is empty the form reports an error and the file is
    left as it was (not even created); when all four are non-empty -- the
    tags may be empty -- the form calls [add_prompt], which stores the
    record.  [add_prompt] itself checks nothing. *)
Theorem submit_prompt_checks_required_fields
    (strip : pystr -> pystr) now title category prompt author tags_input
    (s : store) :
  ((title = [] \/ category = [] \/ prompt = [] \/ author = []) ->
   submit_prompt strip now title category prompt author tags_input s
   = (Ok (FormError (str "Please fill all required fields (*)")), s))
  /\ (title <> [] -> category <> [] -> prompt <> [] -> author <> [] ->
      exists new_prompt,
        add_prompt now title category prompt author (parse_tags strip tags_input) s
        = (Ok new_prompt, Some (collection s ++ [new_prompt]))
        /\ submit_prompt strip now title category prompt author tags_input s
           = (Ok (FormSuccess new_prompt), Some (collection s ++ [new_prompt]))).
Proof.
  split.
  - intros H.
    assert (E : forallb Str.truthy [title; category; prompt; author] = false).
    { simpl. destruct H as [-> | [-> | [-> | ->]]]; simpl;
        repeat (rewrite ?andb_false_r, ?andb_false_l); reflexivity. }
    unfold submit_prompt. cbn [forallb] in E |- *. rewrite E. reflexivity.
  - intros Ht Hc Hp Ha. eexists. split; [apply add_prompt_run|].
    assert (E : forallb Str.truthy [title; category; prompt; author] = true).
    { destruct title, category, prompt, author; try contradiction; reflexivity. }
    unfold submit_prompt. cbn [forallb] in E |- *. rewrite E. cbn [negb].
    unfold bind. rewrite add_prompt_run. reflexivity.
Qed.

Lemma submit_prompt_checks_required_fields_witness :
  submit_prompt ascii_strip noon [] (str "Testing") (str "body") (str "Alice")
                (str "a, b") None
  = (Ok (FormError (str "Please fill all required fields (*)")), None)
  /\ exists new_prompt,
       submit_prompt ascii_strip noon (str "T") (str "Testing") (str "body")
                     (str "Alice") (str "a, b") None
       = (Ok (FormSuccess new_prompt), Some ([] ++ [new_prompt])).
Proof.
  split.
  - apply (submit_prompt_checks_required_fields ascii_strip noon []
             (str "Testing") (str "body") (str "Alice") (str "a, b") None).
    left. reflexivity.
  - destruct (submit_prompt_checks_required_fields ascii_strip noon (str "T")
                (str "Testing") (str "body") (str "Alice") (str "a, b") None)
      as [_ H].
    destruct H as (new_prompt & _ & H); try discriminate.
    exists new_prompt. exact H.
Defined.

(** C2 as stated fails: called with an empty title, [add_prompt] raises
    nothing, returns a record and writes it to the file. *)
Lemma add_prompt_does_not_validate :
  let new_prompt :=
    Prompt.mk 1 [] (str "Testing") (str "body") (str "Alice") []
              (PyInt 0) 0 0 noon [] in
  add_prompt noon [] (str "Testing") (str "body") (str "Alice") [] None
  = (Ok new_prompt, Some [new_prompt])
  /\ exec (add_prompt noon [] (str "Testing") (str "body") (str "Alice") []) None
     <> None.
Proof. split; [reflexivity | discriminate]. Qed.

(** ** Usage counter and ratings: which records change *)

Lemma update_usage_times_first prompt_id before p after :
  first_with_id prompt_id before p ->
  forall (k : nat) (s : store),
    collection s = before ++ p :: after ->
    result (update_usage_times k prompt_id) s = Ok tt
    /\ collection (exec (update_usage_times k prompt_id) s)
       = before
         ++ Prompt.set_usage_count p (Prompt.usage_count p + Z.of_nat k) :: after.
Proof.
  intros Hfirst k. revert p Hfirst.
  induction k as [|k IH]; intros p Hfirst s Hs.
  - split; [reflexivity|]. unfold exec. simpl. rewrite Hs.
    destruct p. unfold Prompt.set_usage_count. simpl. rewrite Z.add_0_r.
    reflexivity.
  - unfold exec, result in *. simpl update_usage_times. unfold bind.
    rewrite update_usage_run, Hs, (update_usage_loop_first _ _ _ _ Hfirst).
    set (p1 := Prompt.set_usage_count p (Prompt.usage_count p + 1)).
    destruct (IH p1 (first_with_id_set_usage_count _ _ _ _ Hfirst)
                (Some (before ++ p1 :: after)) eq_refl) as [Hr Hc].
    split; [exact Hr|]. rewrite Hc. subst p1. unfold Prompt.set_usage_count.
    simpl. do 3 f_equal. lia.
Qed.

(** C4.  For an id that occurs in the collection, [k] calls of
    [update_usage] add exactly [k] to the usage counter of the first record
    with that id and leave the rest of the collection as it was; for an id
    that does not occur, [update_usage] leaves the collection unchanged. *)
Theorem update_usage_counts_calls (s : store) (prompt_id : Z) (k : nat) :
  (In prompt_id (map Prompt.id (collection s)) ->
   exists before p after,
     collection s = before ++ p :: after
     /\ first_with_id prompt_id before p
     /\ result (update_usage_times k prompt_id) s = Ok tt
     /\ collection (exec (update_usage_times k prompt_id) s)
        = before
          ++ Prompt.set_usage_count p (Prompt.usage_count p + Z.of_nat k) :: after)
  /\ (~ In prompt_id (map Prompt.id (collection s)) ->
      result (update_usage prompt_id) s = Ok tt
      /\ collection (exec (update_usage prompt_id) s) = collection s).
Proof.
  split.
  - intros Hin.
    destruct (first_occurrence _ _ Hin) as (before & p & after & Hs & Hfirst).
    exists before, p, after. split; [exact Hs|]. split; [exact Hfirst|].
    exact (update_usage_times_first _ _ _ _ Hfirst k s Hs).
  - intros Hnot. apply absent_iff in Hnot. run_store. simpl.
    rewrite (update_usage_loop_absent _ _ Hnot). split; reflexivity.
Qed.

Lemma update_usage_counts_calls_witness :
  (exists before p after,
     library = before ++ p :: after
     /\ first_with_id 2 before p
     /\ result (update_usage_times 4 2) (Some library) = Ok tt
     /\ collection (exec (update_usage_times 4 2) (Some library))
        = before ++ Prompt.set_usage_count p (Prompt.usage_count p + 4) :: after)
  /\ collection (exec (update_usage 9) (Some library)) = library.
Proof.
  split.
  - apply (update_usage_counts_calls (Some library) 2 4).
    simpl. right. left. reflexivity.
  - apply (update_usage_counts_calls (Some library) 9 0).
    simpl. intros [H | [H | [H | []]]]; discriminate H.
Defined.

(** C5.  For an id that does not occur in the collection, [update_usage]
    and [add_rating] raise nothing and [load_prompts] returns afterwards what
    it returned before. *)
Theorem missing_id_is_a_silent_noop (s : store) (prompt_id rating : Z) :
  ~ In prompt_id (map Prompt.id (collection s)) ->
  result (update_usage prompt_id) s = Ok tt
  /\ collection (exec (update_usage prompt_id) s) = collection s
  /\ result (add_rating prompt_id rating) s = Ok tt
  /\ collection (exec (add_rating prompt_id rating) s) = collection s.
Proof.
  intros Hnot. apply absent_iff in Hnot. run_store.
  rewrite (add_rating_loop_absent _ rating _ Hnot). simpl.
  rewrite (update_usage_loop_absent _ _ Hnot). repeat split.
Qed.

Lemma missing_id_is_a_silent_noop_witness :
  result (update_usage 9) (Some library) = Ok tt
  /\ collection (exec (update_usage 9) (Some library)) = library
  /\ result (add_rating 9 4) (Some library) = Ok tt
  /\ collection (exec (add_rating 9 4) (Some library)) = library.
Proof.
  apply (missing_id_is_a_silent_noop (Some library) 9 4).
  simpl. intros [H | [H | [H | []]]]; discriminate H.
Defined.

(** C10.  For an id that occurs in the collection, [update_usage] and
    [add_rating] keep the length and the order of the collection and replace
    only the first record with that id: the records before it and all the
    records after it, also those with the same id, stay as they are.  In that
    record [update_usage] changes [usage_count] only, and [add_rating]
    changes [rating] and [votes] only (nothing at all when the division
    raises). *)
Theorem mutators_change_first_match_only (s : store) (prompt_id rating : Z) :
  In prompt_id (map Prompt.id (collection s)) ->
  exists before p after,
    collection s = before ++ p :: after
    /\ first_with_id prompt_id before p
    /\ (exists p',
          collection (exec (update_usage prompt_id) s) = before ++ p' :: after
          /\ same_but_usage_count p p'
          /\ Prompt.usage_count p' = Prompt.usage_count p + 1)
    /\ (exists p',
          collection (exec (add_rating prompt_id rating) s) = before ++ p' :: after
          /\ same_but_rating_votes p p'
          /\ match new_rating (Prompt.rating p) (Prompt.votes p) rating with
             | Ok x =>
                 result (add_rating prompt_id rating) s = Ok tt
                 /\ Prompt.rating p' = x
                 /\ Prompt.votes p' = Prompt.votes p + 1
             | Raise e =>
                 result (add_rating prompt_id rating) s = Raise e /\ p' = p
             end)
    /\ List.length (collection (exec (update_usage prompt_id) s))
       = List.length (collection s)
    /\ List.length (collection (exec (add_rating prompt_id rating) s))
       = List.length (collection s).
Proof.
  intros Hin.
  destruct (first_occurrence _ _ Hin) as (before & p & after & Hs & Hfirst).
  exists before, p, after. split; [exact Hs|]. split; [exact Hfirst|].
  run_store. rewrite Hs.
  rewrite (update_usage_loop_first _ _ _ _ Hfirst).
  rewrite (add_rating_loop_first _ rating _ _ _ Hfirst).
  unfold rate.
  destruct (new_rating (Prompt.rating p) (Prompt.votes p) rating) as [x|e]; simpl.
  - repeat split.
    + eexists. split; [reflexivity|]. repeat split.
    + eexists. split; [reflexivity|]. repeat split.
    + rewrite !length_app. reflexivity.
    + rewrite !length_app. reflexivity.
  - repeat split.
    + eexists. split; [reflexivity|]. repeat split.
    + exists p. rewrite Hs. repeat split.
    + rewrite !length_app. reflexivity.
    + rewrite Hs. reflexivity.
Qed.

Lemma mutators_change_first_match_only_witness :
  exists before p after,
    library = before ++ p :: after
    /\ first_with_id 2 before p
    /\ (exists p',
          collection (exec (update_usage 2) (Some library)) = before ++ p' :: after
          /\ same_but_usage_count p p'
          /\ Prompt.usage_count p' = Prompt.usage_count p + 1)
    /\ (exists p',
          collection (exec (add_rating 2 4) (Some library)) = before ++ p' :: after
          /\ same_but_rating_votes p p'
          /\ match new_rating (Prompt.rating p) (Prompt.votes p) 4 with
             | Ok x =>
                 result (add_rating 2 4) (Some library) = Ok tt
                 /\ Prompt.rating p' = x
                 /\ Prompt.votes p' = Prompt.votes p + 1
             | Raise e =>
                 result (add_rating 2 4) (Some library) = Raise e /\ p' = p
             end)
    /\ List.length (collection (exec (update_usage 2) (Some library)))
       = List.length library
    /\ List.length (collection (exec (add_rating 2 4) (Some library)))
       = List.length library.
Proof.
  apply (mutators_change_first_match_only (Some library) 2 4).
  simpl. right. left. reflexivity.
Defined.

(** ** Conversion of small integers to binary64 *)

Lemma digits2_pos_iter_xO (m k : positive) :
  digits2_pos (Pos.iter xO m k) = (digits2_pos m + k)%positive.
Proof.
  induction k as [|k IH] using Pos.peano_ind.
  - simpl. lia.
  - rewrite Pos.iter_succ. simpl. rewrite IH. lia.
Qed.

Lemma digits2_pos_lower (m : positive) :
  2 ^ (Zpos (digits2_pos m) - 1) <= Zpos m.
Proof.
  assert (E : forall d : positive, Zpos (Pos.succ d) - 1 = Z.succ (Zpos d - 1))
    by (intros d; lia).
  induction m as [m IH|m IH|]; simpl digits2_pos.
  - rewrite E, Z.pow_succ_r by lia. lia.
  - rewrite E, Z.pow_succ_r by lia. lia.
  - simpl. lia.
Qed.

Lemma digits2_pos_small (m : positive) :
  Zpos m < 2 ^ 53 -> Zpos (digits2_pos m) <= 53.
Proof.
  intros H.
  destruct (Z_le_gt_dec (Zpos (digits2_pos m)) 53) as [|G]; [assumption|exfalso].
  pose proof (digits2_pos_lower m) as L.
  assert (2 ^ 53 <= 2 ^ (Zpos (digits2_pos m) - 1))
    by (apply Z.pow_le_mono_r; lia).
  lia.
Qed.

Lemma fexp_small (d : Z) : 1 <= d <= 53 -> fexp prec emax d = d - 53.
Proof. intros Hd. unfold fexp, SpecFloat.emin, prec, emax. lia. Qed.

(** A mantissa of 53 bits is not shifted. *)
Lemma shr_fexp_canonical (mz : positive) (ez : Z) :
  Zpos (digits2_pos mz) = 53 -> -52 <= ez <= 0 ->
  shr_fexp prec emax (Zpos mz) ez loc_Exact
  = ({| shr_m := Zpos mz; shr_r := false; shr_s := false |}, ez).
Proof.
  intros Dz He. unfold shr_fexp, Zdigits2. rewrite Dz.
  rewrite fexp_small by lia.
  replace (53 + ez - 53 - ez) with 0 by lia. reflexivity.
Qed.

Lemma binary_round_aux_canonical (sx : bool) (mz : positive) (ez : Z) :
  Zpos (digits2_pos mz) = 53 -> -52 <= ez <= 0 ->
  binary_round_aux prec emax sx (Zpos mz) ez loc_Exact = S754_finite sx mz ez.
Proof.
  intros Dz He. unfold binary_round_aux.
  rewrite (shr_fexp_canonical mz ez Dz He).
  cbn [shr_m loc_of_shr_record round_nearest_even].
  rewrite (shr_fexp_canonical mz ez Dz He). cbn [shr_m].
  destruct (ez <=? emax - prec) eqn:E; [reflexivity|].
  apply Z.leb_gt in E. unfold emax, prec in E. lia.
Qed.

Lemma binary_normalize_small (m : positive) :
  Zpos m < 2 ^ 53 ->
  exists m' e',
    binary_normalize prec emax (Zpos m) 0 false = S754_finite false m' e'.
Proof.
  intros H. pose proof (digits2_pos_small m H) as D.
  unfold binary_normalize, binary_round. rewrite fexp_small by lia.
  assert (A : exists mz ez,
             shl_align m 0 (Zpos (digits2_pos m) + 0 - 53) = (mz, ez)
             /\ Zpos (digits2_pos mz) = 53 /\ -52 <= ez <= 0).
  { unfold shl_align.
    destruct (Zpos (digits2_pos m) + 0 - 53 - 0) as [|q|q] eqn:E; try lia.
    - exists m, 0. split; [reflexivity | lia].
    - exists (Pos.iter xO m q), (Zpos (digits2_pos m) + 0 - 53).
      split; [reflexivity|]. rewrite digits2_pos_iter_xO. lia. }
  destruct A as (mz & ez & -> & Dz & He).
  rewrite (binary_round_aux_canonical false mz ez Dz He). eauto.
Qed.

(** [float(z)] does not overflow for [0 <= z < 2^53]. *)
Lemma float_of_int_small (z : Z) :
  0 <= z < 2 ^ 53 -> exists f, float_of_int z = Ok f.
Proof.
  intros H. unfold float_of_int. destruct z as [|m|m].
  - simpl. eauto.
  - destruct (binary_normalize_small m) as (m' & e' & ->); [lia | eauto].
  - lia.
Qed.

(** On a [float] rating the formula raises nothing. *)
Lemma new_rating_float (f : float) (old_votes rating : Z) :
  0 <= old_votes -> old_votes + 1 < 2 ^ 53 -> 0 <= rating < 2 ^ 53 ->
  exists g, new_rating (PyFloat f) old_votes rating = Ok (PyFloat g).
Proof.
  intros Hv Hv' Hr. unfold new_rating, Num.mul, Num.add, Num.truediv.
  cbn [to_float res_bind is_zero].
  destruct (float_of_int_small old_votes) as (a & ->); [lia|].
  cbn [res_bind to_float].
  destruct (float_of_int_small rating) as (b & ->); [lia|].
  cbn [res_bind to_float].
  destruct (float_of_int_small (old_votes + 1)) as (c & ->); [lia|].
  cbn [res_bind].
  destruct (old_votes + 1 =? 0) eqn:E; [apply Z.eqb_eq in E; lia|].
  eauto.
Qed.

(** ** Comparison of floats *)

Lemma digits2_pos_upper (m : positive) : Zpos m < 2 ^ Zpos (digits2_pos m).
Proof.
  induction m as [m IH|m IH|]; simpl digits2_pos.
  - rewrite Pos2Z.inj_succ, Z.pow_succ_r by lia. lia.
  - rewrite Pos2Z.inj_succ, Z.pow_succ_r by lia. lia.
  - simpl. lia.
Qed.

(** The exponent and the number of digits of a valid finite float. *)
Lemma bounded_inv (m : positive) (e : Z) :
  bounded prec emax m e = true ->
  -1074 <= e /\ Zpos (digits2_pos m) <= 53
  /\ (-1074 < e -> Zpos (digits2_pos m) = 53).
Proof.
  unfold bounded, canonical_mantissa, fexp, SpecFloat.emin, prec, emax.
  rewrite andb_true_iff, Z.eqb_eq. intros [H _]. lia.
Qed.

Lemma dyadic_scaled (z e : Z) :
  -1074 <= e -> (dyadic z e == Qmake (scaled z e) (Z.to_pos (2 ^ 1074)))%Q.
Proof.
  intros He. unfold dyadic, scaled, Qeq.
  assert (P : 0 < 2 ^ 1074) by (apply Z.pow_pos_nonneg; lia).
  destruct (Z.leb_spec 0 e); cbn [Qnum Qden inject_Z].
  - rewrite Z2Pos.id by exact P. rewrite Z.pow_add_r by lia. lia.
  - assert (P' : 0 < 2 ^ (- e)) by (apply Z.pow_pos_nonneg; lia).
    rewrite !Z2Pos.id by assumption.
    replace (2 ^ 1074) with (2 ^ (e + 1074) * 2 ^ (- e))
      by (rewrite <- Z.pow_add_r by lia; f_equal; lia).
    lia.
Qed.

Lemma Qltb_scaled (z1 e1 z2 e2 : Z) :
  -1074 <= e1 -> -1074 <= e2 ->
  Qltb (dyadic z1 e1) (dyadic z2 e2) = (scaled z1 e1 <? scaled z2 e2).
Proof.
  intros H1 H2.
  assert (P : 0 < 2 ^ 1074) by (apply Z.pow_pos_nonneg; lia).
  apply eq_true_iff_eq. rewrite Z.ltb_lt.
  unfold Qltb. rewrite negb_true_iff, <- not_true_iff_false, Qle_bool_iff.
  rewrite (dyadic_scaled z1 e1 H1), (dyadic_scaled z2 e2 H2).
  unfold Qle. cbn [Qnum Qden]. rewrite Z2Pos.id by lia. nia.
Qed.

Lemma Qeqb_scaled (z1 e1 z2 e2 : Z) :
  -1074 <= e1 -> -1074 <= e2 ->
  Qeq_bool (dyadic z1 e1) (dyadic z2 e2) = (scaled z1 e1 =? scaled z2 e2).
Proof.
  intros H1 H2.
  assert (P : 0 < 2 ^ 1074) by (apply Z.pow_pos_nonneg; lia).
  apply eq_true_iff_eq. rewrite Z.eqb_eq, Qeq_bool_iff.
  rewrite (dyadic_scaled z1 e1 H1), (dyadic_scaled z2 e2 H2).
  unfold Qeq. cbn [Qnum Qden]. rewrite Z2Pos.id by lia. nia.
Qed.

Lemma scaled_pos (m : positive) (e : Z) : -1074 <= e -> 0 < scaled (Zpos m) e.
Proof.
  intros He. unfold scaled.
  assert (0 < 2 ^ (e + 1074)) by (apply Z.pow_pos_nonneg; lia). lia.
Qed.

Lemma scaled_neg (m : positive) (e : Z) :
  scaled (Zneg m) e = - scaled (Zpos m) e.
Proof. unfold scaled. lia. Qed.

(** Among valid floats a smaller exponent means a smaller number. *)
Lemma scaled_lt_exponent (m1 m2 : positive) (e1 e2 : Z) :
  bounded prec emax m1 e1 = true -> bounded prec emax m2 e2 = true ->
  e1 < e2 -> scaled (Zpos m1) e1 < scaled (Zpos m2) e2.
Proof.
  intros B1 B2 He.
  destruct (bounded_inv _ _ B1) as (L1 & D1 & _).
  destruct (bounded_inv _ _ B2) as (_ & _ & D2). specialize (D2 ltac:(lia)).
  pose proof (digits2_pos_upper m1) as U1.
  pose proof (digits2_pos_lower m2) as L2. rewrite D2 in L2.
  assert (U : Zpos m1 < 2 ^ 53).
  { apply (Z.lt_le_trans _ _ _ U1). apply Z.pow_le_mono_r; lia. }
  unfold scaled.
  assert (Pa : 0 < 2 ^ (e1 + 1074)) by (apply Z.pow_pos_nonneg; lia).
  assert (Pb : 2 * 2 ^ (e1 + 1074) <= 2 ^ (e2 + 1074)).
  { rewrite <- Z.pow_succ_r by lia. apply Z.pow_le_mono_r; lia. }
  change (2 ^ (53 - 1)) with 4503599627370496 in L2.
  change (2 ^ 53) with 9007199254740992 in U.
  nia.
Qed.

Lemma finite_compare_scaled (m1 m2 : positive) (e1 e2 : Z) :
  bounded prec emax m1 e1 = true -> bounded prec emax m2 e2 = true ->
  match e1 ?= e2 with
  | Lt => Lt
  | Gt => Gt
  | Eq => Pos.compare_cont Eq m1 m2
  end = (scaled (Zpos m1) e1 ?= scaled (Zpos m2) e2).
Proof.
  intros B1 B2. destruct (Z.compare_spec e1 e2) as [->|He|He].
  - destruct (bounded_inv _ _ B2) as (L & _ & _). unfold scaled.
    assert (P : 0 < 2 ^ (e2 + 1074)) by (apply Z.pow_pos_nonneg; lia).
    rewrite <- (Zmult_compare_compat_r _ _ _ (Z.lt_gt _ _ P)). reflexivity.
  - symmetry. apply Z.compare_lt_iff. apply scaled_lt_exponent; assumption.
  - symmetry. apply Z.compare_gt_iff. apply scaled_lt_exponent; assumption.
Qed.

Lemma finite_compare_scaled_opp (m1 m2 : positive) (e1 e2 : Z) :
  bounded prec emax m1 e1 = true -> bounded prec emax m2 e2 = true ->
  match e1 ?= e2 with
  | Lt => Gt
  | Gt => Lt
  | Eq => CompOpp (Pos.compare_cont Eq m1 m2)
  end = CompOpp (scaled (Zpos m1) e1 ?= scaled (Zpos m2) e2).
Proof.
  intros B1 B2. rewrite <- (finite_compare_scaled m1 m2 e1 e2 B1 B2).
  destruct (e1 ?= e2); reflexivity.
Qed.

(** On valid floats the IEEE comparisons compare the values. *)
Lemma sf_ltb_value (x y : spec_float) :
  valid_binary x = true -> valid_binary y = true ->
  xltb (sf_value x) (sf_value y) = SFltb x y.
Proof.
  intros Vx Vy. unfold SFltb.
  destruct x as [sx|sx| |sx mx ex], y as [sy|sy| |sy my ey];
    cbn [sf_value xltb SFcompare valid_binary] in *;
    try reflexivity;
    try (destruct sx; reflexivity); try (destruct sy; reflexivity);
    try (destruct sx, sy; reflexivity).
  - destruct (bounded_inv _ _ Vy) as (L & _ & _).
    change (inject_Z 0) with (dyadic 0 0). rewrite Qltb_scaled by lia.
    pose proof (scaled_pos my ey L). destruct sy; rewrite ?scaled_neg.
    + apply Z.ltb_ge. change (scaled 0 0) with 0. lia.
    + apply Z.ltb_lt. change (scaled 0 0) with 0. lia.
  - destruct (bounded_inv _ _ Vx) as (L & _ & _).
    change (inject_Z 0) with (dyadic 0 0). rewrite Qltb_scaled by lia.
    pose proof (scaled_pos mx ex L). destruct sx; rewrite ?scaled_neg.
    + apply Z.ltb_lt. change (scaled 0 0) with 0. lia.
    + apply Z.ltb_ge. change (scaled 0 0) with 0. lia.
  - destruct (bounded_inv _ _ Vx) as (Lx & _ & _).
    destruct (bounded_inv _ _ Vy) as (Ly & _ & _).
    rewrite Qltb_scaled by lia.
    pose proof (scaled_pos mx ex Lx). pose proof (scaled_pos my ey Ly).
    destruct sx, sy; rewrite ?scaled_neg.
    + rewrite (finite_compare_scaled_opp mx my ex ey Vx Vy).
      unfold Z.ltb. rewrite Z.compare_opp.
      rewrite (Z.compare_antisym (scaled (Zpos mx) ex) (scaled (Zpos my) ey)).
      destruct (scaled (Z.pos mx) ex ?= scaled (Z.pos my) ey); reflexivity.
    + apply Z.ltb_lt. lia.
    + apply Z.ltb_ge. lia.
    + rewrite (finite_compare_scaled mx my ex ey Vx Vy). reflexivity.
Qed.

Lemma sf_eqb_value (x y : spec_float) :
  valid_binary x = true -> valid_binary y = true ->
  xeqb (sf_value x) (sf_value y) = SFeqb x y.
Proof.
  intros Vx Vy. unfold SFeqb.
  destruct x as [sx|sx| |sx mx ex], y as [sy|sy| |sy my ey];
    cbn [sf_value xeqb SFcompare valid_binary] in *;
    try reflexivity;
    try (destruct sx; reflexivity); try (destruct sy; reflexivity);
    try (destruct sx, sy; reflexivity).
  - destruct (bounded_inv _ _ Vy) as (L & _ & _).
    change (inject_Z 0) with (dyadic 0 0). rewrite Qeqb_scaled by lia.
    pose proof (scaled_pos my ey L). change (scaled 0 0) with 0.
    destruct sy; rewrite ?scaled_neg; apply Z.eqb_neq; lia.
  - destruct (bounded_inv _ _ Vx) as (L & _ & _).
    change (inject_Z 0) with (dyadic 0 0). rewrite Qeqb_scaled by lia.
    pose proof (scaled_pos mx ex L). change (scaled 0 0) with 0.
    destruct sx; rewrite ?scaled_neg; apply Z.eqb_neq; lia.
  - destruct (bounded_inv _ _ Vx) as (Lx & _ & _).
    destruct (bounded_inv _ _ Vy) as (Ly & _ & _).
    rewrite Qeqb_scaled by lia.
    pose proof (scaled_pos mx ex Lx). pose proof (scaled_pos my ey Ly).
    destruct sx, sy; rewrite ?scaled_neg.
    + rewrite (finite_compare_scaled_opp mx my ex ey Vx Vy).
      destruct (Z.compare_spec (scaled (Zpos mx) ex) (scaled (Zpos my) ey));
        cbn [CompOpp]; [apply Z.eqb_eq | apply Z.eqb_neq | apply Z.eqb_neq]; lia.
    + apply Z.eqb_neq. lia.
    + apply Z.eqb_neq. lia.
    + rewrite (finite_compare_scaled mx my ex ey Vx Vy).
      destruct (Z.compare_spec (scaled (Zpos mx) ex) (scaled (Zpos my) ey));
        [apply Z.eqb_eq | apply Z.eqb_neq | apply Z.eqb_neq]; lia.
Qed.

(** On two floats [<] and [==] are the comparisons of the hardware. *)
Lemma float_ltb_value (f g : float) :
  Num.ltb (PyFloat f) (PyFloat g) = PrimFloat.ltb f g.
Proof.
  unfold Num.ltb. cbn [value]. rewrite ltb_spec.
  apply sf_ltb_value; apply Prim2SF_valid.
Qed.

Lemma float_eqb_value (f g : float) :
  Num.eqb (PyFloat f) (PyFloat g) = PrimFloat.eqb f g.
Proof.
  unfold Num.eqb. cbn [value]. rewrite eqb_spec.
  apply sf_eqb_value; apply Prim2SF_valid.
Qed.

(** ** The running mean of [add_rating] *)

Lemma in_zrange (lo : Z) (len : nat) (x : Z) :
  In x (zrange lo len) <-> lo <= x < lo + Z.of_nat len.
Proof.
  unfold zrange. rewrite in_map_iff. split.
  - intros (i & <- & Hi). apply in_seq in Hi. lia.
  - intros H. exists (Z.to_nat (x - lo)). split; [lia|]. apply in_seq. lia.
Qed.

Lemma in_rating_steps (n sum r : Z) :
  1 <= n <= 6 -> n <= sum <= 5 * n -> 1 <= r <= 5 ->
  In (n, sum, r) rating_steps.
Proof.
  intros Hn Hs Hr. unfold rating_steps.
  apply in_flat_map. exists n. split; [apply in_zrange; simpl; lia|].
  apply in_flat_map. exists sum. split; [apply in_zrange; lia|].
  apply in_map. apply in_zrange. simpl. lia.
Qed.

(** In each of these states the formula, applied to the correctly rounded
    mean of the ratings so far, gives the correctly rounded mean of the
    ratings with the new one: the 450 cases are evaluated. *)
Lemma rating_steps_exact :
  map (fun '(n, sum, r) =>
         (x <- Num.truediv (PyInt sum) (PyInt n) ;; new_rating x n r)%res)
      rating_steps
  = map (fun '(n, sum, r) => Num.truediv (PyInt (sum + r)) (PyInt (n + 1)))
        rating_steps.
Proof. vm_compute. reflexivity. Qed.

Lemma new_rating_of_mean (n sum r : Z) (x : pynum) :
  1 <= n <= 6 -> n <= sum <= 5 * n -> 1 <= r <= 5 ->
  Num.truediv (PyInt sum) (PyInt n) = Ok x ->
  new_rating x n r = Num.truediv (PyInt (sum + r)) (PyInt (n + 1)).
Proof.
  intros Hn Hs Hr Hx.
  pose proof (proj1 map_ext_in_iff rating_steps_exact
                (n, sum, r) (in_rating_steps n sum r Hn Hs Hr)) as H.
  cbv beta iota in H. rewrite Hx in H. exact H.
Qed.

(** The first rating of a record that has none. *)
Lemma new_rating_first (r : Z) :
  1 <= r <= 5 ->
  exists g, new_rating (PyInt 0) 0 r = Ok (PyFloat g)
            /\ Num.truediv (PyInt r) (PyInt 1) = Ok (PyFloat g).
Proof.
  intros Hr.
  assert (C : r = 1 \/ r = 2 \/ r = 3 \/ r = 4 \/ r = 5) by lia.
  destruct C as [-> | [-> | [-> | [-> | ->]]]];
    eexists; split; vm_compute; reflexivity.
Qed.

Lemma rate_inv (p p' : Prompt.t) (r : Z) :
  rate p r = Ok p' ->
  new_rating (Prompt.rating p) (Prompt.votes p) r = Ok (Prompt.rating p')
  /\ Prompt.votes p' = Prompt.votes p + 1
  /\ Prompt.id p' = Prompt.id p
  /\ same_but_rating_votes p p'.
Proof.
  unfold rate. destruct (new_rating _ _ _) as [x|e]; simpl; [|discriminate].
  intros [= <-]. repeat split.
Qed.

Lemma same_but_rating_votes_refl (p : Prompt.t) : same_but_rating_votes p p.
Proof. repeat split. Qed.

Lemma same_but_rating_votes_trans (p q r : Prompt.t) :
  same_but_rating_votes p q -> same_but_rating_votes q r ->
  same_but_rating_votes p r.
Proof.
  unfold same_but_rating_votes.
  intros (A1 & A2 & A3 & A4 & A5 & A6 & A7 & A8 & A9)
         (B1 & B2 & B3 & B4 & B5 & B6 & B7 & B8 & B9).
  repeat split; congruence.
Qed.

(** Ratings of 1..5 never make [add_rating] raise, and each of them adds one
    vote. *)
Lemma rate_all_succeeds (ratings : list Z) :
  Forall (fun r => 1 <= r <= 5) ratings ->
  forall p : Prompt.t,
    0 <= Prompt.votes p ->
    Prompt.votes p + Z.of_nat (List.length ratings) < 2 ^ 53 ->
    (exists f, Prompt.rating p = PyFloat f)
    \/ (Prompt.rating p = PyInt 0 /\ Prompt.votes p = 0) ->
    exists p',
      rate_all p ratings = Ok p'
      /\ same_but_rating_votes p p'
      /\ Prompt.votes p' = Prompt.votes p + Z.of_nat (List.length ratings).
Proof.
  induction 1 as [|r ratings Hr _ IH]; intros p Hv Hlen Hrat.
  - exists p. simpl. repeat split. lia.
  - assert (S1 : exists g, new_rating (Prompt.rating p) (Prompt.votes p) r
                           = Ok (PyFloat g)).
    { simpl List.length in Hlen. destruct Hrat as [(f & ->) | (-> & ->)].
      - apply new_rating_float; lia.
      - destruct (new_rating_first r Hr) as (g & Hg & _). eauto. }
    destruct S1 as (g & Hg).
    set (p1 := Prompt.set_votes (Prompt.set_rating p (PyFloat g))
                                (Prompt.votes p + 1)).
    assert (R : rate p r = Ok p1) by (unfold rate; rewrite Hg; reflexivity).
    destruct (IH p1) as (p' & Hall & Hsame & Hvotes).
    + simpl. lia.
    + simpl Prompt.votes. simpl List.length in Hlen. lia.
    + left. exists g. reflexivity.
    + exists p'. simpl rate_all. rewrite R. simpl res_bind.
      split; [exact Hall|]. split.
      * apply (same_but_rating_votes_trans p p1 p'); [repeat split | exact Hsame].
      * rewrite Hvotes. simpl. lia.
Qed.

(** Up to seven ratings: the stored rating is the correctly rounded mean. *)
Lemma rate_all_mean (ratings : list Z) :
  Forall (fun r => 1 <= r <= 5) ratings ->
  forall (p p' : Prompt.t) (sum : Z),
    1 <= Prompt.votes p ->
    Prompt.votes p + Z.of_nat (List.length ratings) <= 7 ->
    Prompt.votes p <= sum <= 5 * Prompt.votes p ->
    Num.truediv (PyInt sum) (PyInt (Prompt.votes p)) = Ok (Prompt.rating p) ->
    rate_all p ratings = Ok p' ->
    Num.truediv (PyInt (sum + fold_right Z.add 0 ratings))
                (PyInt (Prompt.votes p + Z.of_nat (List.length ratings)))
    = Ok (Prompt.rating p').
Proof.
  induction 1 as [|r ratings Hr _ IH]; intros p p' sum Hv Hlen Hsum Hmean Hall.
  - simpl in *. injection Hall as <-. rewrite !Z.add_0_r. exact Hmean.
  - simpl rate_all in Hall. simpl List.length in Hlen.
    destruct (rate p r) as [p1|e] eqn:R; [|discriminate].
    simpl res_bind in Hall.
    destruct (rate_inv _ _ _ R) as (Hnew & Hv1 & _ & _).
    assert (Hn : 1 <= Prompt.votes p <= 6) by lia.
    rewrite (new_rating_of_mean _ sum r _ Hn Hsum Hr Hmean) in Hnew.
    rewrite <- Hv1 in Hnew.
    assert (G : Num.truediv (PyInt (sum + r + fold_right Z.add 0 ratings))
                  (PyInt (Prompt.votes p1 + Z.of_nat (List.length ratings)))
                = Ok (Prompt.rating p')).
    { apply IH; [lia | lia | lia | exact Hnew | exact Hall]. }
    simpl fold_right. simpl List.length.
    replace (sum + (r + fold_right Z.add 0 ratings))
      with (sum + r + fold_right Z.add 0 ratings) by lia.
    replace (Prompt.votes p + Z.of_nat (S (List.length ratings)))
      with (Prompt.votes p1 + Z.of_nat (List.length ratings)) by lia.
    exact G.
Qed.

(** [add_ratings] on the store does to the first record with the id what
    [rate_all] does to a record. *)
Lemma add_ratings_run prompt_id before after (ratings : list Z) :
  forall (p p' : Prompt.t) (s : store),
    collection s = before ++ p :: after ->
    first_with_id prompt_id before p ->
    rate_all p ratings = Ok p' ->
    result (add_ratings prompt_id ratings) s = Ok tt
    /\ collection (exec (add_ratings prompt_id ratings) s)
       = before ++ p' :: after.
Proof.
  induction ratings as [|r ratings IH]; intros p p' s Hs Hfirst Hall.
  - simpl in Hall. injection Hall as <-. split; [reflexivity | exact Hs].
  - simpl rate_all in Hall.
    destruct (rate p r) as [p1|e] eqn:R; [|discriminate].
    simpl res_bind in Hall.
    destruct (rate_inv _ _ _ R) as (_ & _ & Hid & _).
    unfold exec, result in *. simpl add_ratings. unfold bind.
    rewrite add_rating_run, Hs, (add_rating_loop_first _ r _ _ _ Hfirst), R.
    simpl res_bind. cbv iota.
    apply (IH p1 p' (Some (before ++ p1 :: after)) eq_refl); [|exact Hall].
    destruct Hfirst as [Hb Hp]. split; [exact Hb | congruence].
Qed.

(** Without rounding the formula keeps the mean: after the ratings, the
    rating times the number of votes is the sum of the ratings. *)
Lemma rate_all_exact_sum (ratings : list Z) :
  forall (rating : Q) (votes sum : Z),
    0 <= votes ->
    (rating * inject_Z votes == inject_Z sum)%Q ->
    (rate_all_exact ratings rating votes
     * inject_Z (votes + Z.of_nat (List.length ratings))
     == inject_Z (sum + fold_right Z.add 0%Z ratings))%Q.
Proof.
  induction ratings as [|r ratings IH]; intros rating votes sum Hv Hsum.
  - simpl. rewrite !Z.add_0_r. exact Hsum.
  - simpl rate_all_exact. simpl fold_right. simpl List.length.
    replace (votes + Z.of_nat (S (List.length ratings)))
      with (votes + 1 + Z.of_nat (List.length ratings)) by lia.
    replace (sum + (r + fold_right Z.add 0 ratings))
      with (sum + r + fold_right Z.add 0 ratings) by lia.
    apply IH; [lia|].
    unfold new_rating_exact. rewrite (inject_Z_plus sum r), <- Hsum.
    field. intros G. unfold Qeq in G. simpl in G. lia.
Qed.

Lemma rate_all_exact_is_mean (ratings : list Z) :
  (rate_all_exact ratings 0 0 * inject_Z (Z.of_nat (List.length ratings))
   == inject_Z (fold_right Z.add 0%Z ratings))%Q.
Proof.
  apply (rate_all_exact_sum ratings 0%Q 0 0); [lia | reflexivity].
Qed.

(** C3 (amended).  On a record that has rating 0 and no votes, [k] calls of
    [add_rating] with ratings from 1 to 5 all succeed, each of them computing
    [(rating * votes + r) / (votes + 1)] in binary64 arithmetic and adding
    one vote, so that [votes] is [k] in the end; the other keys and the other
    records are unchanged.  For [k] up to 7 the stored rating is exactly the
    mean of the [k] ratings (their sum divided by [k], correctly rounded).
    For longer sequences the two may differ by rounding errors. *)
Theorem add_ratings_votes_and_mean
    (s : store) (prompt_id : Z) (before after : list Prompt.t) (p : Prompt.t)
    (ratings : list Z) :
  collection s = before ++ p :: after ->
  first_with_id prompt_id before p ->
  Prompt.rating p = PyInt 0 ->
  Prompt.votes p = 0 ->
  Forall (fun r => 1 <= r <= 5) ratings ->
  Z.of_nat (List.length ratings) < 2 ^ 53 ->
  exists p',
    rate_all p ratings = Ok p'
    /\ result (add_ratings prompt_id ratings) s = Ok tt
    /\ collection (exec (add_ratings prompt_id ratings) s) = before ++ p' :: after
    /\ same_but_rating_votes p p'
    /\ Prompt.votes p' = Z.of_nat (List.length ratings)
    /\ ((0 < List.length ratings <= 7)%nat -> mean ratings = Ok (Prompt.rating p')).
Proof.
  intros Hs Hfirst Hrat Hvotes Hvalid Hlen.
  destruct (rate_all_succeeds ratings Hvalid p) as (p' & Hall & Hsame & Hv);
    [lia | lia | right; split; assumption |].
  exists p'. split; [exact Hall|].
  destruct (add_ratings_run prompt_id before after ratings p p' s Hs Hfirst Hall)
    as [Hres Hcoll].
  split; [exact Hres|]. split; [exact Hcoll|]. split; [exact Hsame|].
  split; [lia|].
  intros Hk. destruct ratings as [|r ratings]; [simpl in Hk; lia|].
  inversion Hvalid as [|? ? Hr Hvalid']; subst.
  simpl rate_all in Hall.
  destruct (rate p r) as [p1|e] eqn:R; [|discriminate].
  simpl res_bind in Hall.
  destruct (rate_inv _ _ _ R) as (Hnew & Hv1 & _ & _).
  rewrite Hrat, Hvotes in Hnew. rewrite Hvotes in Hv1.
  destruct (new_rating_first r Hr) as (g & Hg & Hmean1).
  rewrite Hg in Hnew. rewrite Hnew in Hmean1.
  simpl List.length in Hk.
  pose proof (rate_all_mean ratings Hvalid' p1 p' r) as G.
  rewrite Hv1 in G. simpl (0 + 1) in G.
  unfold mean. simpl fold_right. simpl List.length.
  replace (Z.of_nat (S (List.length ratings)))
    with (1 + Z.of_nat (List.length ratings)) by lia.
  apply G; [lia | lia | lia | exact Hmean1 | exact Hall].
Qed.

Lemma add_ratings_votes_and_mean_witness :
  exists p',
    rate_all fresh_prompt [5; 3] = Ok p'
    /\ result (add_ratings 3 [5; 3]) (Some library) = Ok tt
    /\ collection (exec (add_ratings 3 [5; 3]) (Some library))
       = [api_client; pytest_suite] ++ p' :: []
    /\ same_but_rating_votes fresh_prompt p'
    /\ Prompt.votes p' = 2
    /\ ((0 < 2 <= 7)%nat -> mean [5; 3] = Ok (Prompt.rating p')).
Proof.
  apply (add_ratings_votes_and_mean (Some library) 3 [api_client; pytest_suite]
           [] fresh_prompt [5; 3]).
  - reflexivity.
  - split; [|reflexivity]. repeat constructor; discriminate.
  - reflexivity.
  - reflexivity.
  - repeat constructor; discriminate.
  - reflexivity.
Defined.

(** C3 as stated fails: after the eight ratings 5, 5, 5, 5, 5, 3, 1, 1 the
    stored rating is 3.7500000000000004, while their mean is 30 / 8 = 3.75. *)
Lemma add_ratings_is_not_the_mean :
  let ratings := [5; 5; 5; 5; 5; 3; 1; 1] in
  exists p',
    collection (exec (add_ratings 3 ratings) (Some library))
    = [api_client; pytest_suite; p']
    /\ Prompt.votes p' = 8
    /\ Prompt.rating p' = PyFloat 0x1.e000000000001p+1
    /\ mean ratings = Ok (PyFloat 3.75)
    /\ Num.eqb (Prompt.rating p') (PyFloat 3.75) = false.
Proof.
  eexists. split; [vm_compute; reflexivity|].
  repeat split; vm_compute; reflexivity.
Qed.

(** ** The built-in [sorted] with [reverse=True] *)

Section SortedFacts.
Context {A K : Type}.
Variable key : A -> K.
Variable lt : K -> K -> bool.

Lemma insert_reverse_perm (x : A) (l : list A) :
  Permutation (x :: l) (insert_reverse key lt x l).
Proof.
  induction l as [|y l IH]; simpl; [reflexivity|].
  destruct (lt (key x) (key y)); [|reflexivity].
  rewrite perm_swap. apply perm_skip. exact IH.
Qed.

Lemma sorted_reverse_perm (l : list A) :
  Permutation l (sorted_reverse key lt l).
Proof.
  induction l as [|x l IH]; simpl; [reflexivity|].
  rewrite <- insert_reverse_perm. apply perm_skip. exact IH.
Qed.

(** Elements none of which is smaller than another keep their order: an
    element is only moved behind elements of a greater key. *)
Section Stable.
Variable same : A -> bool.

Lemma insert_reverse_filter (x : A) (l : list A) :
  (forall y, In y l -> same x = true -> same y = true ->
             lt (key x) (key y) = false) ->
  filter same (insert_reverse key lt x l) = filter same (x :: l).
Proof.
  induction l as [|y l IH]; intros H; [reflexivity|].
  simpl insert_reverse. destruct (lt (key x) (key y)) eqn:E; [|reflexivity].
  simpl filter in *. rewrite IH by (intros z Hz; apply H; right; exact Hz).
  destruct (same x) eqn:Sx, (same y) eqn:Sy; try reflexivity.
  rewrite (H y (or_introl eq_refl) eq_refl Sy) in E. discriminate.
Qed.

Lemma sorted_reverse_filter (l : list A) :
  (forall a b, In a l -> In b l -> same a = true -> same b = true ->
               lt (key a) (key b) = false) ->
  filter same (sorted_reverse key lt l) = filter same l.
Proof.
  induction l as [|x l IH]; intros H; [reflexivity|].
  simpl sorted_reverse. rewrite insert_reverse_filter.
  - simpl. rewrite IH; [reflexivity|].
    intros a b Ha Hb. apply H; right; assumption.
  - intros y Hy. apply H; [left; reflexivity | right].
    exact (Permutation_in _ (Permutation_sym (sorted_reverse_perm l)) Hy).
Qed.
End Stable.

(** Two descending arrangements of the same elements that order tied
    elements alike are the same list. *)
Lemma descending_unique (l1 : list A) :
  forall l2,
    (forall a, In a l1 -> lt (key a) (key a) = false) ->
    Permutation l1 l2 ->
    descending key lt l1 -> descending key lt l2 ->
    (forall a, In a l1 ->
       filter (tied key lt (key a)) l1 = filter (tied key lt (key a)) l2) ->
    l1 = l2.
Proof.
  induction l1 as [|x t1 IH]; intros l2 Hirr Hperm D1 D2 Htied.
  - symmetry. apply Permutation_nil. exact Hperm.
  - destruct l2 as [|y t2];
      [apply Permutation_sym, Permutation_nil in Hperm; discriminate|].
    inversion D1 as [|? ? D1' F1]; subst. inversion D2 as [|? ? D2' F2]; subst.
    assert (Ix : lt (key x) (key x) = false) by (apply Hirr; left; reflexivity).
    assert (Hxy : lt (key x) (key y) = false).
    { assert (Hy : In y (x :: t1))
        by (apply (Permutation_in _ (Permutation_sym Hperm)); left; reflexivity).
      destruct Hy as [<- | Hy]; [exact Ix|].
      rewrite Forall_forall in F1. exact (F1 y Hy). }
    assert (Hyx : lt (key y) (key x) = false).
    { assert (Hx : In x (y :: t2))
        by (apply (Permutation_in _ Hperm); left; reflexivity).
      destruct Hx as [<- | Hx]; [exact Ix|].
      rewrite Forall_forall in F2. exact (F2 x Hx). }
    assert (E : x = y).
    { pose proof (Htied x (or_introl eq_refl)) as T. simpl in T.
      assert (Tx : tied key lt (key x) x = true)
        by (unfold tied; rewrite Ix; reflexivity).
      assert (Ty : tied key lt (key x) y = true)
        by (unfold tied; rewrite Hxy, Hyx; reflexivity).
      rewrite Tx, Ty in T. congruence. }
    subst y. f_equal. apply IH.
    + intros a Ha. apply Hirr. right. exact Ha.
    + exact (Permutation_cons_inv Hperm).
    + exact D1'.
    + exact D2'.
    + intros a Ha. pose proof (Htied a (or_intror Ha)) as T. simpl in T.
      destruct (tied key lt (key a) x); congruence.
Qed.

(** A list in descending order is left as it is. *)
Lemma sorted_reverse_descending_id (l : list A) :
  descending key lt l -> sorted_reverse key lt l = l.
Proof.
  induction 1 as [|x l _ IH Hx]; [reflexivity|].
  simpl. rewrite IH. destruct Hx as [|y l Hy _]; [reflexivity|].
  simpl. rewrite Hy. reflexivity.
Qed.

(** On keys that [<] orders as a strict weak order the result is in
    descending order. *)
Section Descending.
Variable ok : K -> Prop.
Hypothesis lt_asym :
  forall a b, ok a -> ok b -> lt a b = true -> lt b a = false.
Hypothesis ge_trans :
  forall a b c, ok a -> ok b -> ok c ->
    lt a b = false -> lt b c = false -> lt a c = false.

Let oks (l : list A) := Forall (fun a => ok (key a)) l.

Lemma insert_reverse_descending (x : A) (l : list A) :
  ok (key x) -> oks l ->
  descending key lt l -> descending key lt (insert_reverse key lt x l).
Proof.
  intros Hx Hl Hd. induction Hd as [|y l Hd IH Hy]; simpl.
  - constructor; constructor.
  - pose proof (Forall_inv Hl) as Oy. pose proof (Forall_inv_tail Hl) as Ol.
    destruct (lt (key x) (key y)) eqn:E.
    + constructor; [exact (IH Ol)|].
      apply (Permutation_Forall (insert_reverse_perm x l)).
      constructor; [exact (lt_asym _ _ Hx Oy E) | exact Hy].
    + constructor; [constructor; assumption|].
      constructor; [exact E|].
      rewrite Forall_forall in *. intros b Hb.
      exact (ge_trans _ _ _ Hx Oy (Ol b Hb) E (Hy b Hb)).
Qed.

Lemma sorted_reverse_descending (l : list A) :
  oks l -> descending key lt (sorted_reverse key lt l).
Proof.
  induction 1 as [|x l Hx Hl IH]; simpl; [constructor|].
  apply insert_reverse_descending; [exact Hx | | exact IH].
  exact (Permutation_Forall (sorted_reverse_perm l) Hl).
Qed.

Lemma sorted_reverse_idempotent (l : list A) :
  oks l ->
  sorted_reverse key lt (sorted_reverse key lt l) = sorted_reverse key lt l.
Proof.
  intros Hl. apply sorted_reverse_descending_id, sorted_reverse_descending, Hl.
Qed.

(** The result is determined by what the built-in promises: it is the only
    descending arrangement of the list that keeps tied elements in their
    order. *)
Lemma sorted_reverse_unique (l l' : list A) :
  oks l ->
  Permutation l l' ->
  descending key lt l' ->
  (forall a, In a l ->
     filter (tied key lt (key a)) l' = filter (tied key lt (key a)) l) ->
  l' = sorted_reverse key lt l.
Proof.
  intros Hl Hperm D Htied. unfold oks in Hl. rewrite Forall_forall in Hl.
  assert (Hin : forall a, In a l' -> In a l)
    by (intros a; apply Permutation_in, Permutation_sym, Hperm).
  apply descending_unique.
  - intros a Ha. destruct (lt (key a) (key a)) eqn:E; [|reflexivity].
    rewrite <- E. apply lt_asym; auto.
  - rewrite <- Hperm. apply sorted_reverse_perm.
  - exact D.
  - apply sorted_reverse_descending. apply Forall_forall. exact Hl.
  - intros a Ha. rewrite (Htied a (Hin a Ha)). symmetry.
    apply sorted_reverse_filter. intros b c Hb Hc Tb Tc.
    unfold tied in Tb, Tc. apply andb_true_iff in Tb, Tc.
    destruct Tb as [Tb _], Tc as [_ Tc].
    apply negb_true_iff in Tb, Tc.
    apply (ge_trans _ (key a)); auto.
Qed.
End Descending.
End SortedFacts.

(** ** The orders of the three sort keys *)

Lemma str_eqb_eq (s t : pystr) : Str.eqb s t = true <-> s = t.
Proof.
  revert t. induction s as [|c s IH]; intros [|d t]; simpl;
    try (split; [discriminate | discriminate]); [tauto|].
  rewrite andb_true_iff, N.eqb_eq, IH. split.
  - intros [-> ->]. reflexivity.
  - intros [= -> ->]. split; reflexivity.
Qed.

Lemma str_eqb_refl (s : pystr) : Str.eqb s s = true.
Proof. apply str_eqb_eq. reflexivity. Qed.

Lemma str_ltb_irrefl (s : pystr) : Str.ltb s s = false.
Proof.
  induction s as [|c s IH]; [reflexivity|]. simpl.
  rewrite N.ltb_irrefl, N.eqb_refl, IH. reflexivity.
Qed.

Lemma str_ltb_asym (s t : pystr) : Str.ltb s t = true -> Str.ltb t s = false.
Proof.
  revert t. induction s as [|c s IH]; intros [|d t]; simpl; try discriminate;
    [reflexivity|].
  destruct (N.ltb_spec c d), (N.ltb_spec d c), (N.eqb_spec c d), (N.eqb_spec d c);
    simpl; try lia; try discriminate; try reflexivity.
  apply IH.
Qed.

Lemma str_ge_trans (s t u : pystr) :
  Str.ltb s t = false -> Str.ltb t u = false -> Str.ltb s u = false.
Proof.
  revert t u. induction s as [|c s IH]; intros [|d t] [|e u]; simpl;
    try discriminate; try reflexivity.
  destruct (N.ltb_spec c d), (N.ltb_spec d e), (N.ltb_spec c e),
           (N.eqb_spec c d), (N.eqb_spec d e), (N.eqb_spec c e);
    simpl; try lia; try discriminate; try reflexivity.
  apply IH.
Qed.

Lemma Qltb_false_iff (p q : Q) : Qltb p q = false <-> (q <= p)%Q.
Proof.
  unfold Qltb. rewrite negb_false_iff. apply Qle_bool_iff.
Qed.

Lemma Qltb_true_iff (p q : Q) : Qltb p q = true <-> (p < q)%Q.
Proof.
  unfold Qltb. rewrite negb_true_iff, <- not_true_iff_false, Qle_bool_iff.
  split; [apply Qnot_le_lt | apply Qlt_not_le].
Qed.

Lemma xltb_asym (a b : xreal) : xltb a b = true -> xltb b a = false.
Proof.
  destruct a as [|sa|p], b as [|sb|q]; simpl; try discriminate;
    try reflexivity.
  - destruct sa, sb; simpl; try discriminate; reflexivity.
  - intros ->. reflexivity.
  - destruct sb; simpl; [discriminate | reflexivity].
  - rewrite Qltb_true_iff, Qltb_false_iff. apply Qlt_le_weak.
Qed.

Lemma xltb_ge_trans (a b c : xreal) :
  b <> XNaN -> xltb a b = false -> xltb b c = false -> xltb a c = false.
Proof.
  intros Hb.
  destruct a as [|sa|p], b as [|sb|q], c as [|sc|r]; simpl;
    try reflexivity; try congruence;
    try (destruct sa); try (destruct sb); try (destruct sc); simpl;
    try reflexivity; try discriminate.
  rewrite !Qltb_false_iff. intros H1 H2. exact (Qle_trans _ _ _ H2 H1).
Qed.

Lemma xeqb_not_lt (a b k : xreal) :
  xeqb a k = true -> xeqb b k = true -> xltb a b = false.
Proof.
  destruct a as [|sa|p], b as [|sb|q], k as [|sk|r]; simpl;
    try discriminate; try reflexivity.
  - destruct sa, sb, sk; simpl; try discriminate; reflexivity.
  - rewrite !Qeq_bool_iff, Qltb_false_iff. intros H1 H2.
    rewrite H1, H2. apply Qle_refl.
Qed.

Lemma num_not_nan (x : pynum) : Num.is_nan x = false -> Num.value x <> XNaN.
Proof. unfold Num.is_nan. destruct (Num.value x); congruence. Qed.

(** The three sorts of the page. *)
Lemma sorted_by_created_at (prompts : list Prompt.t) :
  let sorted := sorted_reverse Prompt.created_at Str.ltb prompts in
  Permutation prompts sorted
  /\ descending Prompt.created_at Str.ltb sorted
  /\ stable Prompt.created_at Str.eqb prompts sorted
  /\ sorted_reverse Prompt.created_at Str.ltb sorted = sorted.
Proof.
  assert (D : descending Prompt.created_at Str.ltb
                (sorted_reverse Prompt.created_at Str.ltb prompts)).
  { apply (sorted_reverse_descending _ _ (fun _ => True)).
    - intros a b _ _. apply str_ltb_asym.
    - intros a b c _ _ _. apply str_ge_trans.
    - apply Forall_forall. intros; exact I. }
  split; [apply sorted_reverse_perm|]. split; [exact D|]. split.
  - intros k. apply sorted_reverse_filter. intros a b _ _ Ha Hb.
    apply str_eqb_eq in Ha, Hb. rewrite Ha, Hb. apply str_ltb_irrefl.
  - apply sorted_reverse_descending_id, D.
Qed.

Lemma sorted_by_usage_count (prompts : list Prompt.t) :
  let sorted := sorted_reverse Prompt.usage_count Z.ltb prompts in
  Permutation prompts sorted
  /\ descending Prompt.usage_count Z.ltb sorted
  /\ stable Prompt.usage_count Z.eqb prompts sorted
  /\ sorted_reverse Prompt.usage_count Z.ltb sorted = sorted.
Proof.
  assert (D : descending Prompt.usage_count Z.ltb
                (sorted_reverse Prompt.usage_count Z.ltb prompts)).
  { apply (sorted_reverse_descending _ _ (fun _ => True)).
    - intros a b _ _. rewrite Z.ltb_lt, Z.ltb_ge. lia.
    - intros a b c _ _ _. rewrite !Z.ltb_ge. lia.
    - apply Forall_forall. intros; exact I. }
  split; [apply sorted_reverse_perm|]. split; [exact D|]. split.
  - intros k. apply sorted_reverse_filter. intros a b _ _ Ha Hb.
    apply Z.eqb_eq in Ha, Hb. rewrite Ha, Hb. apply Z.ltb_irrefl.
  - apply sorted_reverse_descending_id, D.
Qed.

Lemma sorted_by_rating (prompts : list Prompt.t) :
  let sorted := sorted_reverse Prompt.rating Num.ltb prompts in
  Permutation prompts sorted
  /\ (Forall (fun p => Num.is_nan (Prompt.rating p) = false) prompts ->
      descending Prompt.rating Num.ltb sorted
      /\ stable Prompt.rating Num.eqb prompts sorted
      /\ sorted_reverse Prompt.rating Num.ltb sorted = sorted).
Proof.
  split; [apply sorted_reverse_perm|].
  intros Hnan.
  assert (D : descending Prompt.rating Num.ltb
                (sorted_reverse Prompt.rating Num.ltb prompts)).
  { apply (sorted_reverse_descending _ _ (fun x => Num.is_nan x = false)).
    - intros a b _ _. apply xltb_asym.
    - intros a b c _ Hb _. apply xltb_ge_trans, num_not_nan, Hb.
    - exact Hnan. }
  split; [exact D|]. split.
  - intros k. apply sorted_reverse_filter. intros a b _ _. apply xeqb_not_lt.
  - apply sorted_reverse_descending_id, D.
Qed.

(** ** Sorting the browse list *)

(** Whatever list is a descending arrangement by [usage_count] that keeps
    ties in their order, it is the one the page shows. *)
Lemma most_used_order_unique (prompts sorted : list Prompt.t) :
  Permutation prompts sorted ->
  descending Prompt.usage_count Z.ltb sorted ->
  (forall p, In p prompts ->
     filter (tied Prompt.usage_count Z.ltb (Prompt.usage_count p)) sorted
     = filter (tied Prompt.usage_count Z.ltb (Prompt.usage_count p)) prompts) ->
  sorted = sort_prompts (str "Most Used") prompts.
Proof.
  intros Hperm D Htied.
  apply (sorted_reverse_unique _ _ (fun _ => True)); try assumption.
  - intros a b _ _. rewrite Z.ltb_lt, Z.ltb_ge. lia.
  - intros a b c _ _ _. rewrite !Z.ltb_ge. lia.
  - apply Forall_forall. intros; exact I.
Qed.

(** C6.  [sort_prompts] knows three keys: "Most Recent" sorts by descending
    [created_at], "Most Used" by descending [usage_count] and "Highest
    Rated" by descending [rating]; any other value leaves the list as it
    is.  Each sort rearranges the list.  By creation time and by usage the
    result is in descending order, keeps records of equal key in their
    original order, and sorting it again gives the same list -- in
    particular for the usage key.  By rating the same three facts hold when
    no rating is NaN; with a NaN rating [<] does not order the keys and only
    the rearrangement is stated. *)
Theorem sort_prompts_three_stable_keys (prompts : list Prompt.t) :
  (let sorted := sort_prompts (str "Most Recent") prompts in
   Permutation prompts sorted
   /\ descending Prompt.created_at Str.ltb sorted
   /\ stable Prompt.created_at Str.eqb prompts sorted
   /\ sort_prompts (str "Most Recent") sorted = sorted)
  /\ (let sorted := sort_prompts (str "Most Used") prompts in
      Permutation prompts sorted
      /\ descending Prompt.usage_count Z.ltb sorted
      /\ stable Prompt.usage_count Z.eqb prompts sorted
      /\ sort_prompts (str "Most Used") sorted = sorted)
  /\ (let sorted := sort_prompts (str "Highest Rated") prompts in
      Permutation prompts sorted
      /\ (Forall (fun p => Num.is_nan (Prompt.rating p) = false) prompts ->
          descending Prompt.rating Num.ltb sorted
          /\ stable Prompt.rating Num.eqb prompts sorted
          /\ sort_prompts (str "Highest Rated") sorted = sorted))
  /\ (forall sort_by,
        sort_by <> str "Most Recent" -> sort_by <> str "Most Used" ->
        sort_by <> str "Highest Rated" ->
        sort_prompts sort_by prompts = prompts).
Proof.
  split; [exact (sorted_by_created_at prompts)|].
  split; [exact (sorted_by_usage_count prompts)|].
  split; [exact (sorted_by_rating prompts)|].
  intros sort_by H1 H2 H3. unfold sort_prompts.
  destruct (Str.eqb sort_by (str "Most Recent")) eqn:E1;
    [apply str_eqb_eq in E1; contradiction|].
  destruct (Str.eqb sort_by (str "Most Used")) eqn:E2;
    [apply str_eqb_eq in E2; contradiction|].
  destruct (Str.eqb sort_by (str "Highest Rated")) eqn:E3;
    [apply str_eqb_eq in E3; contradiction|].
  reflexivity.
Qed.

Lemma sort_prompts_three_stable_keys_witness :
  (descending Prompt.rating Num.ltb (sort_prompts (str "Highest Rated") library)
   /\ stable Prompt.rating Num.eqb library
        (sort_prompts (str "Highest Rated") library)
   /\ sort_prompts (str "Highest Rated")
        (sort_prompts (str "Highest Rated") library)
      = sort_prompts (str "Highest Rated") library)
  /\ sort_prompts (str "Newest") library = library.
Proof.
  destruct (sort_prompts_three_stable_keys library) as (_ & _ & (_ & H) & G).
  split.
  - apply H. repeat constructor.
  - apply G; discriminate.
Defined.

Lemma in_firstn {A} (n : nat) (l : list A) (x : A) :
  In x (firstn n l) -> In x l.
Proof.
  intros H. rewrite <- (firstn_skipn n l). apply in_or_app. left. exact H.
Qed.

Lemma descending_app {A K} (key : A -> K) (lt : K -> K -> bool)
    (l1 l2 : list A) :
  descending key lt (l1 ++ l2) ->
  descending key lt l1
  /\ forall a b, In a l1 -> In b l2 -> lt (key a) (key b) = false.
Proof.
  induction l1 as [|x l1 IH]; simpl; intros D.
  - split; [constructor | intros a b []].
  - inversion D as [|? ? D' F]; subst. destruct (IH D') as [D1 H].
    rewrite Forall_forall in F. split.
    + constructor; [exact D1|]. apply Forall_forall. intros b Hb.
      apply F, in_or_app. left. exact Hb.
    + intros a b [<- | Ha] Hb; [|exact (H a b Ha Hb)].
      apply F, in_or_app. right. exact Hb.
Qed.

(** C8.  The list of the most used prompts is the first 5 records of the
    collection sorted by descending [usage_count]: it has 5 records (all of
    them when there are fewer), in descending order, and no record left out
    has been used more often than one of the list.  The list of the highest
    rated ones leaves out the records without votes ([votes > 0] is the
    test, which for a count of votes is [votes != 0]), sorts the rest by
    descending [rating] and takes the first 5.  No record with
    [votes == 0] is in it. *)
Theorem top_lists_sort_then_take (prompts : list Prompt.t) :
  top_used prompts = topByUsage prompts 5
  /\ List.length (top_used prompts) = Nat.min 5 (List.length prompts)
  /\ (exists rest,
        Permutation prompts (top_used prompts ++ rest)
        /\ descending Prompt.usage_count Z.ltb (top_used prompts)
        /\ forall p q, In p (top_used prompts) -> In q rest ->
                       Prompt.usage_count q <= Prompt.usage_count p)
  /\ top_rated prompts
     = firstn 5 (sort_prompts (str "Highest Rated") (filter voted prompts))
  /\ List.length (top_rated prompts)
     = Nat.min 5 (List.length (filter voted prompts))
  /\ (forall p, In p (top_rated prompts) -> In p prompts /\ Prompt.votes p <> 0)
  /\ (Forall (fun p => 0 <= Prompt.votes p) prompts ->
      top_rated prompts = topByRating prompts 5).
Proof.
  split; [reflexivity|]. split.
  { unfold top_used. rewrite length_firstn.
    rewrite <- (Permutation_length (sorted_reverse_perm _ _ prompts)).
    reflexivity. }
  split.
  { exists (skipn 5 (sorted_reverse Prompt.usage_count Z.ltb prompts)).
    unfold top_used. rewrite firstn_skipn.
    destruct (sorted_by_usage_count prompts) as (Hperm & D & _).
    split; [exact Hperm|].
    rewrite <- (firstn_skipn 5) in D. apply descending_app in D.
    destruct D as [D H]. split; [exact D|].
    intros p q Hp Hq. apply Z.ltb_ge. exact (H p q Hp Hq). }
  split; [reflexivity|]. split.
  { unfold top_rated. rewrite length_firstn.
    rewrite <- (Permutation_length (sorted_reverse_perm _ _ (filter voted prompts))).
    reflexivity. }
  split.
  - intros p Hp. unfold top_rated in Hp. apply in_firstn in Hp.
    apply (Permutation_in _ (Permutation_sym (sorted_reverse_perm _ _ _))) in Hp.
    apply filter_In in Hp. destruct Hp as [Hin Hv]. split; [exact Hin|].
    unfold voted in Hv. apply Z.ltb_lt in Hv. lia.
  - intros Hvotes. unfold top_rated, topByRating.
    change (sort_prompts (str "Highest Rated"))
      with (sorted_reverse Prompt.rating Num.ltb).
    do 2 f_equal. apply filter_ext_in. intros p Hp.
    rewrite Forall_forall in Hvotes. specialize (Hvotes p Hp). unfold voted.
    destruct (Z.ltb_spec 0 (Prompt.votes p)), (Z.eqb_spec (Prompt.votes p) 0);
      simpl; try reflexivity; lia.
Qed.

Lemma top_lists_sort_then_take_witness :
  top_rated library = topByRating library 5.
Proof.
  apply (top_lists_sort_then_take library).
  repeat constructor; discriminate.
Defined.

(** ** The average rating *)

Lemma existsb_filter {A} (f : A -> bool) (l : list A) :
  existsb f l = true <-> filter f l <> [].
Proof.
  induction l as [|x l IH]; simpl.
  - split; [discriminate | congruence].
  - destruct (f x); simpl; [split; [discriminate | reflexivity] | exact IH].
Qed.

(** A division by a count that is not 0 raises no [ZeroDivisionError]. *)
Lemma truediv_by_nonzero (x : pynum) (n : Z) :
  n <> 0 -> Num.truediv x (PyInt n) <> Raise ZeroDivisionError.
Proof.
  intros Hn. apply Z.eqb_neq in Hn.
  destruct x as [a|f]; unfold Num.truediv; cbn [to_float res_bind is_zero].
  - unfold int_true_divide. rewrite Hn.
    destruct (a =? 0); [discriminate|].
    destruct (SFdiv_core_binary prec emax (Z.abs a) 0 (Z.abs n) 0) as [[q e] l].
    destruct (binary_round_aux prec emax _ q e l); discriminate.
  - unfold float_of_int.
    destruct (binary_normalize prec emax n 0 false);
      cbn [res_bind]; rewrite ?Hn; discriminate.
Qed.

Lemma filter_voted_none (prompts : list Prompt.t) :
  Forall (fun p => Prompt.votes p = 0) prompts -> filter voted prompts = [].
Proof.
  induction 1 as [|p l Hp _ IH]; [reflexivity|].
  simpl. unfold voted at 1. rewrite Hp. simpl. exact IH.
Qed.

(** C7.  The average rating is the mean of [rating] (the sum divided by the
    count) over the records with [votes > 0], and 0 when there is no such
    record: for the empty collection and for a collection whose records
    all have [votes == 0].  The division never raises
    [ZeroDivisionError]. *)
Theorem avg_rating_is_mean_of_voted
    (builtin_sum : list pynum -> res pynum) (prompts : list Prompt.t) :
  let rated := filter voted prompts in
  (forall p, In p rated <-> In p prompts /\ 0 < Prompt.votes p)
  /\ (rated <> [] ->
      avg_rating builtin_sum prompts
      = mean_of builtin_sum (map Prompt.rating rated))
  /\ (rated = [] -> avg_rating builtin_sum prompts = Ok (PyInt 0))
  /\ avg_rating builtin_sum [] = Ok (PyInt 0)
  /\ (Forall (fun p => Prompt.votes p = 0) prompts ->
      avg_rating builtin_sum prompts = Ok (PyInt 0))
  /\ (avg_rating builtin_sum prompts = Raise ZeroDivisionError ->
      builtin_sum (map Prompt.rating rated) = Raise ZeroDivisionError).
Proof.
  intros rated.
  assert (Hnone : rated = [] -> avg_rating builtin_sum prompts = Ok (PyInt 0)).
  { intros Hr. unfold avg_rating.
    destruct (existsb voted prompts) eqn:E; [|reflexivity].
    apply existsb_filter in E. contradiction. }
  assert (Hsome : rated <> [] ->
                  avg_rating builtin_sum prompts
                  = mean_of builtin_sum (map Prompt.rating rated)).
  { intros Hr. unfold avg_rating, mean_of.
    apply existsb_filter in Hr. rewrite Hr, length_map. reflexivity. }
  split.
  { intros p. unfold rated. rewrite filter_In. unfold voted.
    rewrite Z.ltb_lt. tauto. }
  split; [exact Hsome|]. split; [exact Hnone|]. split; [reflexivity|]. split.
  - intros Hzero. apply Hnone, filter_voted_none, Hzero.
  - destruct rated as [|p0 rated0] eqn:R.
    + rewrite (Hnone eq_refl). discriminate.
    + rewrite Hsome by discriminate. unfold mean_of.
      destruct (builtin_sum (map Prompt.rating (p0 :: rated0))) as [x|e];
        simpl res_bind; [|intros H; exact H].
      intros H. exfalso. revert H. apply truediv_by_nonzero.
      simpl List.length. lia.
Qed.

Lemma avg_rating_is_mean_of_voted_witness :
  avg_rating sum_left library
  = mean_of sum_left [PyFloat 4.5; PyFloat 5]
  /\ avg_rating sum_left [fresh_prompt] = Ok (PyInt 0).
Proof.
  destruct (avg_rating_is_mean_of_voted sum_left library) as (_ & H & _).
  destruct (avg_rating_is_mean_of_voted sum_left [fresh_prompt])
    as (_ & _ & _ & _ & G & _).
  split.
  - apply H. discriminate.
  - apply G. repeat constructor.
Defined.

(** ** Searching *)

Lemma startswith_spec (s prefix : pystr) :
  Str.startswith s prefix = true <-> exists post, s = prefix ++ post.
Proof.
  revert s. induction prefix as [|d prefix IH]; intros [|c s]; simpl.
  - split; [intros _; exists []; reflexivity | reflexivity].
  - split; [intros _; exists (c :: s); reflexivity | reflexivity].
  - split; [discriminate | intros (post & H); discriminate H].
  - rewrite andb_true_iff, N.eqb_eq, IH. split.
    + intros (-> & post & ->). exists post. reflexivity.
    + intros (post & [= -> ->]). split; [reflexivity | exists post; reflexivity].
Qed.

Lemma contains_spec (s sub : pystr) :
  Str.contains s sub = true <-> exists pre post, s = pre ++ sub ++ post.
Proof.
  induction s as [|c s IH]; cbn [Str.contains];
    rewrite orb_true_iff, startswith_spec.
  - split.
    + intros [(post & H) | H]; [|discriminate]. exists [], post. exact H.
    + intros (pre & post & H). left. destruct pre; [|discriminate H].
      exists post. exact H.
  - rewrite IH. split.
    + intros [(post & H) | (pre & post & ->)].
      * exists [], post. exact H.
      * exists (c :: pre), post. reflexivity.
    + intros (pre & post & H). destruct pre as [|c' pre].
      * left. exists post. exact H.
      * right. injection H as _ ->. exists pre, post. reflexivity.
Qed.

Lemma search_match_spec (lower : pystr -> pystr) (term : pystr) (p : Prompt.t) :
  search_match lower (lower term) p = true <-> matches lower term p.
Proof.
  unfold search_match, matches, ci_substring.
  rewrite !orb_true_iff, !contains_spec, existsb_exists.
  setoid_rewrite contains_spec. tauto.
Qed.



(** ** Worked examples *)

(** The category "All" keeps every record. *)
Lemma filter_category_all (prompts : list Prompt.t) :
  filter_category (str "All") prompts = prompts.
Proof. reflexivity. Qed.

(** A prompt submitted to an empty library gets id 1 and no rating; rated 5
    and then 3 it has the rating 4.0 from two votes. *)
Example submit_then_rate_twice :
  let submitted :=
    exec (add_prompt noon (str "T") (str "Testing") (str "body") (str "Alice")
            [str "x"]) None in
  collection submitted
  = [Prompt.mk 1 (str "T") (str "Testing") (str "body") (str "Alice") [str "x"]
               (PyInt 0) 0 0 noon []]
  /\ collection (exec (add_ratings 1 [5; 3]) submitted)
     = [Prompt.mk 1 (str "T") (str "Testing") (str "body") (str "Alice") [str "x"]
                  (PyFloat 4) 2 0 noon []].
Proof. split; vm_compute; reflexivity. Qed.

(** Browsing the category "Testing" for "mock", sorted by rating. *)
Example browse_testing_for_mock :
  result (browse ascii_lower (str "mock") (str "Testing") (str "Highest Rated"))
         (Some library)
  = Ok [pytest_suite].
Proof. vm_compute. reflexivity. Qed.

(** * Further properties *)

(** ** Filtering and sorting the browse list *)

Lemma filter_filter_comm {A} (f g : A -> bool) (l : list A) :
  filter f (filter g l) = filter g (filter f l).
Proof.
  induction l as [|x l IH]; [reflexivity|]. simpl.
  destruct (f x) eqn:Fx, (g x) eqn:Gx; simpl; rewrite ?Fx, ?Gx, IH; reflexivity.
Qed.

Lemma Permutation_filter {A} (f : A -> bool) (l l' : list A) :
  Permutation l l' -> Permutation (filter f l) (filter f l').
Proof.
  induction 1 as [|x l l' _ IH|x y l|l l' l'' _ IH1 _ IH2]; simpl.
  - constructor.
  - destruct (f x); [apply perm_skip|]; exact IH.
  - destruct (f x), (f y); try reflexivity. apply perm_swap.
  - exact (Permutation_trans IH1 IH2).
Qed.

Lemma Forall_filter {A} (P : A -> Prop) (f : A -> bool) (l : list A) :
  Forall P l -> Forall P (filter f l).
Proof.
  intros H. apply Forall_forall. intros x Hx. apply filter_In in Hx.
  rewrite Forall_forall in H. apply H, Hx.
Qed.

Lemma descending_filter {A K} (key : A -> K) (lt : K -> K -> bool)
    (f : A -> bool) (l : list A) :
  descending key lt l -> descending key lt (filter f l).
Proof.
  induction 1 as [|x l _ IH Hx]; simpl; [constructor|].
  destruct (f x); [|exact IH]. constructor; [exact IH|].
  apply Forall_filter, Hx.
Qed.

(** The category filter and the search filter can be applied in either
    order. *)
Lemma filters_commute
    (lower : pystr -> pystr) (category_filter search : pystr)
    (prompts : list Prompt.t) :
  filter_search lower search (filter_category category_filter prompts)
  = filter_category category_filter (filter_search lower search prompts).
Proof.
  unfold filter_search, filter_category.
  destruct (Str.truthy search), (negb (Str.eqb category_filter (str "All")));
    try reflexivity.
  apply filter_filter_comm.
Qed.

(** A stable descending sort of a part of a list is that part of the sorted
    list. *)
Section SortedFilter.
Context {A K : Type}.
Variable key : A -> K.
Variable lt : K -> K -> bool.
Variable ok : K -> Prop.
Hypothesis lt_asym :
  forall a b, ok a -> ok b -> lt a b = true -> lt b a = false.
Hypothesis ge_trans :
  forall a b c, ok a -> ok b -> ok c ->
    lt a b = false -> lt b c = false -> lt a c = false.

Lemma sorted_reverse_filter_tied (l : list A) (a : A) :
  Forall (fun x => ok (key x)) l -> ok (key a) ->
  filter (tied key lt (key a)) (sorted_reverse key lt l)
  = filter (tied key lt (key a)) l.
Proof.
  intros Hl Ha. rewrite Forall_forall in Hl.
  apply sorted_reverse_filter. intros b c Hb Hc Tb Tc.
  unfold tied in Tb, Tc. apply andb_true_iff in Tb, Tc.
  destruct Tb as [Tb _], Tc as [_ Tc]. apply negb_true_iff in Tb, Tc.
  apply (ge_trans _ (key a)); auto.
Qed.

Lemma sorted_reverse_filter_comm (f : A -> bool) (l : list A) :
  Forall (fun x => ok (key x)) l ->
  sorted_reverse key lt (filter f l) = filter f (sorted_reverse key lt l).
Proof.
  intros Hl. symmetry.
  apply (sorted_reverse_unique key lt ok lt_asym ge_trans).
  - apply Forall_filter, Hl.
  - apply Permutation_filter, sorted_reverse_perm.
  - apply descending_filter.
    apply (sorted_reverse_descending key lt ok lt_asym ge_trans), Hl.
  - intros a Ha. apply filter_In in Ha. destruct Ha as [Ha _].
    rewrite !(filter_filter_comm (tied key lt (key a)) f). f_equal.
    apply sorted_reverse_filter_tied; [exact Hl|].
    rewrite Forall_forall in Hl. exact (Hl a Ha).
Qed.
End SortedFilter.

Lemma sort_prompts_filter_comm (sort_by : pystr) (f : Prompt.t -> bool)
    (prompts : list Prompt.t) :
  Forall (fun p => Num.is_nan (Prompt.rating p) = false) prompts ->
  sort_prompts sort_by (filter f prompts) = filter f (sort_prompts sort_by prompts).
Proof.
  intros Hnan. unfold sort_prompts.
  destruct (Str.eqb sort_by (str "Most Recent")).
  { apply (sorted_reverse_filter_comm _ _ (fun _ => True)).
    - intros a b _ _. apply str_ltb_asym.
    - intros a b c _ _ _. apply str_ge_trans.
    - apply Forall_forall. intros; exact I. }
  destruct (Str.eqb sort_by (str "Most Used")).
  { apply (sorted_reverse_filter_comm _ _ (fun _ => True)).
    - intros a b _ _. rewrite Z.ltb_lt, Z.ltb_ge. lia.
    - intros a b c _ _ _. rewrite !Z.ltb_ge. lia.
    - apply Forall_forall. intros; exact I. }
  destruct (Str.eqb sort_by (str "Highest Rated")); [|reflexivity].
  apply (sorted_reverse_filter_comm _ _ (fun x => Num.is_nan x = false)).
  - intros a b _ _. apply xltb_asym.
  - intros a b c _ Hb _. apply xltb_ge_trans, num_not_nan, Hb.
  - exact Hnan.
Qed.

(** X1.  Sorting the filtered list gives the same as filtering the sorted list,
    for each sort key (no rating being NaN). *)
Theorem sort_commutes_with_filters
    (lower : pystr -> pystr) (search category_filter sort_by : pystr)
    (prompts : list Prompt.t) :
  Forall (fun p => Num.is_nan (Prompt.rating p) = false) prompts ->
  sort_prompts sort_by
    (filter_search lower search (filter_category category_filter prompts))
  = filter_search lower search
      (filter_category category_filter (sort_prompts sort_by prompts)).
Proof.
  intros Hnan. unfold filter_search, filter_category.
  destruct (Str.truthy search), (negb (Str.eqb category_filter (str "All")));
    try reflexivity.
  - rewrite !sort_prompts_filter_comm;
      [reflexivity | exact Hnan | apply Forall_filter, Hnan].
  - apply sort_prompts_filter_comm, Hnan.
  - apply sort_prompts_filter_comm, Hnan.
Qed.

Lemma sort_commutes_with_filters_witness :
  sort_prompts (str "Highest Rated")
    (filter_search ascii_lower (str "python")
       (filter_category (str "All") library))
  = filter_search ascii_lower (str "python")
      (filter_category (str "All") (sort_prompts (str "Highest Rated") library)).
Proof.
  apply (sort_commutes_with_filters ascii_lower (str "python") (str "All")
           (str "Highest Rated") library).
  repeat constructor.
Defined.

Lemma sort_prompts_perm (sort_by : pystr) (prompts : list Prompt.t) :
  Permutation prompts (sort_prompts sort_by prompts).
Proof.
  unfold sort_prompts.
  destruct (Str.eqb sort_by (str "Most Recent")); [apply sorted_reverse_perm|].
  destruct (Str.eqb sort_by (str "Most Used")); [apply sorted_reverse_perm|].
  destruct (Str.eqb sort_by (str "Highest Rated")); [apply sorted_reverse_perm|].
  reflexivity.
Qed.

Lemma filter_category_In (category_filter : pystr) (prompts : list Prompt.t)
    (p : Prompt.t) :
  In p (filter_category category_filter prompts)
  <-> In p prompts
      /\ (category_filter = str "All" \/ Prompt.category p = category_filter).
Proof.
  unfold filter_category.
  destruct (Str.eqb category_filter (str "All")) eqn:E; simpl.
  - apply str_eqb_eq in E. tauto.
  - rewrite filter_In, str_eqb_eq. split; [tauto|].
    intros [Hin [Hall | Hc]]; [|tauto].
    rewrite Hall, str_eqb_refl in E. discriminate.
Qed.

Lemma filter_search_In (lower : pystr -> pystr) (search : pystr)
    (prompts : list Prompt.t) (p : Prompt.t) :
  In p (filter_search lower search prompts)
  <-> In p prompts /\ (search = [] \/ matches lower search p).
Proof.
  unfold filter_search. destruct search as [|c search]; simpl.
  - tauto.
  - rewrite filter_In, search_match_spec. split; [tauto|].
    intros [Hin [H | H]]; [discriminate | tauto].
Qed.

(** X2.  Whatever the search term, the category and the sort key are, the browse
    page raises nothing and leaves the file as it is; it shows the records
    of the collection that have the category (all of them for "All") and
    match the term (all of them for the empty term), each as often as it is
    in the collection, and no others. *)
Theorem browse_shows_matching_records
    (lower : pystr -> pystr) (search category_filter sort_by : pystr)
    (s : store) :
  exists shown,
    browse lower search category_filter sort_by s = (Ok shown, s)
    /\ Permutation
         (filter_search lower search
            (filter_category category_filter (collection s)))
         shown
    /\ forall p,
         In p shown
         <-> In p (collection s)
             /\ (category_filter = str "All"
                 \/ Prompt.category p = category_filter)
             /\ (search = [] \/ matches lower search p).
Proof.
  eexists. split; [|split].
  - unfold browse, bind, ret. rewrite load_prompts_spec. reflexivity.
  - apply sort_prompts_perm.
  - intros p. split.
    + intros Hp.
      apply (Permutation_in _ (Permutation_sym (sort_prompts_perm _ _))) in Hp.
      apply filter_search_In in Hp. destruct Hp as [Hp Hs].
      apply filter_category_In in Hp. tauto.
    + intros (Hin & Hc & Hs).
      apply (Permutation_in _ (sort_prompts_perm _ _)).
      apply filter_search_In. split; [|exact Hs].
      apply filter_category_In. tauto.
Qed.

(** ** A new prompt in the browse list *)

(** An element appended to a list whose key is greater than all keys of the
    list comes first. *)
Lemma sorted_reverse_snoc_max {A K} (key : A -> K) (lt : K -> K -> bool)
    (l : list A) (x : A) :
  Forall (fun y => lt (key y) (key x) = true) l ->
  sorted_reverse key lt (l ++ [x]) = x :: sorted_reverse key lt l.
Proof.
  induction 1 as [|y l Hy _ IH]; [reflexivity|].
  simpl. rewrite IH. simpl. rewrite Hy. reflexivity.
Qed.

(** X3.  A prompt submitted at a time later than the creation times of all
    stored prompts is the first of the list sorted by "Most Recent",
    followed by the list as it was sorted before. *)
Theorem new_prompt_is_most_recent
    now title category prompt author tags (s : store) :
  Forall (fun p => Str.ltb (Prompt.created_at p) now = true) (collection s) ->
  exists new_prompt,
    result (add_prompt now title category prompt author tags) s = Ok new_prompt
    /\ sort_prompts (str "Most Recent")
         (collection (exec (add_prompt now title category prompt author tags) s))
       = new_prompt :: sort_prompts (str "Most Recent") (collection s).
Proof.
  intros Hnow. eexists. run_store. split; [reflexivity|]. simpl collection.
  change (sort_prompts (str "Most Recent"))
    with (sorted_reverse Prompt.created_at Str.ltb).
  apply sorted_reverse_snoc_max. exact Hnow.
Qed.

Lemma new_prompt_is_most_recent_witness :
  exists new_prompt,
    result (add_prompt noon (str "T") (str "Testing") (str "body") (str "Alice")
              []) (Some library) = Ok new_prompt
    /\ sort_prompts (str "Most Recent")
         (collection (exec (add_prompt noon (str "T") (str "Testing")
                              (str "body") (str "Alice") []) (Some library)))
       = new_prompt :: sort_prompts (str "Most Recent") library.
Proof.
  apply (new_prompt_is_most_recent noon (str "T") (str "Testing") (str "body")
           (str "Alice") [] (Some library)).
  repeat constructor.
Defined.

(** ** The metrics under the mutators *)

Lemma str_eqb_spec (s t : pystr) : reflect (s = t) (Str.eqb s t).
Proof.
  destruct (Str.eqb s t) eqn:E; constructor.
  - apply str_eqb_eq, E.
  - intros H. apply str_eqb_eq in H. congruence.
Qed.

Lemma total_usage_acc (prompts : list Prompt.t) (acc : Z) :
  fold_left (fun acc p => acc + Prompt.usage_count p) prompts acc
  = acc + total_usage prompts.
Proof.
  unfold total_usage. revert acc.
  induction prompts as [|p l IH]; intros acc; simpl; [lia|].
  rewrite IH, (IH (Prompt.usage_count p)). lia.
Qed.

Lemma total_usage_cons (p : Prompt.t) (prompts : list Prompt.t) :
  total_usage (p :: prompts) = Prompt.usage_count p + total_usage prompts.
Proof. unfold total_usage at 1. simpl. apply total_usage_acc. Qed.

Lemma total_usage_app (l1 l2 : list Prompt.t) :
  total_usage (l1 ++ l2) = total_usage l1 + total_usage l2.
Proof.
  induction l1 as [|p l1 IH]; simpl; [reflexivity|].
  rewrite !total_usage_cons, IH. lia.
Qed.

Lemma total_usage_update_usage_loop (prompt_id : Z) (prompts : list Prompt.t) :
  total_usage (update_usage_loop prompt_id prompts)
  = total_usage prompts + (if has_id prompt_id prompts then 1 else 0).
Proof.
  induction prompts as [|p l IH]; simpl; [reflexivity|].
  destruct (Prompt.id p =? prompt_id); simpl.
  - rewrite !total_usage_cons. simpl. lia.
  - rewrite !total_usage_cons, IH. lia.
Qed.

(** What is read from keys that a mutator does not assign is the same
    afterwards. *)
Lemma update_usage_loop_map {B} (f : Prompt.t -> B) (prompt_id : Z)
    (prompts : list Prompt.t) :
  (forall p n, f (Prompt.set_usage_count p n) = f p) ->
  map f (update_usage_loop prompt_id prompts) = map f prompts.
Proof.
  intros Hf. induction prompts as [|p l IH]; simpl; [reflexivity|].
  destruct (Prompt.id p =? prompt_id); simpl; [rewrite Hf | rewrite IH];
    reflexivity.
Qed.

Lemma add_rating_loop_map {B} (f : Prompt.t -> B) (prompt_id rating : Z)
    (prompts prompts' : list Prompt.t) :
  (forall p x n, f (Prompt.set_votes (Prompt.set_rating p x) n) = f p) ->
  add_rating_loop prompt_id rating prompts = Ok prompts' ->
  map f prompts' = map f prompts.
Proof.
  intros Hf. revert prompts'.
  induction prompts as [|p l IH]; simpl; intros l' H.
  - injection H as <-. reflexivity.
  - destruct (Prompt.id p =? prompt_id).
    + unfold rate in H.
      destruct (new_rating _ _ _) as [x|e]; simpl in H; [|discriminate].
      injection H as <-. simpl. rewrite Hf. reflexivity.
    + destruct (add_rating_loop prompt_id rating l) as [l0|e]; simpl in H;
        [|discriminate].
      injection H as <-. simpl. rewrite (IH l0 eq_refl). reflexivity.
Qed.

(** The collection after [add_rating], whether it raised or not, read
    through such keys. *)
Lemma add_rating_map {B} (f : Prompt.t -> B) (prompt_id rating : Z) (s : store) :
  (forall p x n, f (Prompt.set_votes (Prompt.set_rating p x) n) = f p) ->
  map f (collection (exec (add_rating prompt_id rating) s))
  = map f (collection s).
Proof.
  intros Hf. run_store.
  destruct (add_rating_loop prompt_id rating (collection s)) as [l'|e] eqn:E;
    simpl; [|reflexivity].
  exact (add_rating_loop_map f _ _ _ _ Hf E).
Qed.

Lemma total_usage_map (l l' : list Prompt.t) :
  map Prompt.usage_count l' = map Prompt.usage_count l ->
  total_usage l' = total_usage l.
Proof.
  revert l'. induction l as [|p l IH]; intros [|p' l'] H; try discriminate;
    [reflexivity|].
  simpl in H. injection H as Hp Hl. rewrite !total_usage_cons, Hp, (IH _ Hl).
  reflexivity.
Qed.

Lemma count_by_map (key : Prompt.t -> pystr) (prompts : list Prompt.t) :
  count_by key prompts
  = fold_left (fun counts k => dict_set counts k (dict_get counts k 0 + 1))
              (map key prompts) [].
Proof.
  unfold count_by. generalize (@nil (pystr * Z)).
  induction prompts as [|p l IH]; intros d; simpl; [reflexivity|]. apply IH.
Qed.

Lemma count_by_ext (key : Prompt.t -> pystr) (l l' : list Prompt.t) :
  map key l' = map key l -> count_by key l' = count_by key l.
Proof. intros H. rewrite !count_by_map, H. reflexivity. Qed.

Lemma contributors_ext (l l' : list Prompt.t) :
  map Prompt.author l' = map Prompt.author l -> contributors l' = contributors l.
Proof. unfold contributors. intros ->. reflexivity. Qed.

Lemma avg_rating_ext (builtin_sum : list pynum -> res pynum)
    (l l' : list Prompt.t) :
  map (fun p => (Prompt.votes p, Prompt.rating p)) l'
  = map (fun p => (Prompt.votes p, Prompt.rating p)) l ->
  avg_rating builtin_sum l' = avg_rating builtin_sum l.
Proof.
  intros H.
  assert (G : existsb voted l' = existsb voted l
              /\ map Prompt.rating (filter voted l')
                 = map Prompt.rating (filter voted l)).
  { revert l' H. induction l as [|p l IH]; intros [|p' l'] H;
      try discriminate; [split; reflexivity|].
    simpl in H. injection H as Hv Hr Hl. destruct (IH _ Hl) as [E M].
    assert (V : voted p' = voted p) by (unfold voted; rewrite Hv; reflexivity).
    simpl. rewrite V, E. split; [reflexivity|].
    destruct (voted p); simpl; rewrite ?Hr, M; reflexivity. }
  destruct G as [E M]. unfold avg_rating. rewrite E.
  rewrite <- (length_map Prompt.rating (filter voted l')), M, length_map.
  reflexivity.
Qed.

(** X4.  [update_usage] adds 1 to the total usage when a record has the id and
    nothing otherwise; the number of prompts and of contributors, the
    average rating and the counts per category and per author stay as they
    are. *)
Theorem update_usage_changes_total_usage_only
    (builtin_sum : list pynum -> res pynum) (s : store) (prompt_id : Z) :
  let before := collection s in
  let after := collection (exec (update_usage prompt_id) s) in
  total_usage after
  = total_usage before + (if has_id prompt_id before then 1 else 0)
  /\ total_prompts after = total_prompts before
  /\ contributors after = contributors before
  /\ avg_rating builtin_sum after = avg_rating builtin_sum before
  /\ category_counts after = category_counts before
  /\ author_counts after = author_counts before.
Proof.
  intros before after. subst before after. run_store. simpl collection.
  split; [apply total_usage_update_usage_loop|]. split.
  { unfold total_prompts.
    rewrite <- (length_map Prompt.id), update_usage_loop_map, length_map;
      reflexivity. }
  split; [apply contributors_ext, update_usage_loop_map; reflexivity|].
  split; [apply avg_rating_ext, update_usage_loop_map; reflexivity|].
  split; apply count_by_ext, update_usage_loop_map; reflexivity.
Qed.

(** X5.  [add_rating], whether it raises or not, leaves the number of prompts,
    the total usage, the number of contributors and the counts per category
    and per author as they are, and no usage counter changes. *)
Theorem add_rating_keeps_other_metrics (s : store) (prompt_id rating : Z) :
  let before := collection s in
  let after := collection (exec (add_rating prompt_id rating) s) in
  total_prompts after = total_prompts before
  /\ total_usage after = total_usage before
  /\ map Prompt.usage_count after = map Prompt.usage_count before
  /\ contributors after = contributors before
  /\ category_counts after = category_counts before
  /\ author_counts after = author_counts before.
Proof.
  intros before after. subst before after.
  assert (U : map Prompt.usage_count
                (collection (exec (add_rating prompt_id rating) s))
              = map Prompt.usage_count (collection s))
    by (apply add_rating_map; reflexivity).
  split.
  { unfold total_prompts.
    rewrite <- (length_map Prompt.id), add_rating_map, length_map;
      reflexivity. }
  split; [apply total_usage_map, U|]. split; [exact U|].
  split; [apply contributors_ext, add_rating_map; reflexivity|].
  split; apply count_by_ext, add_rating_map; reflexivity.
Qed.

(** ** The counting dictionaries *)

Lemma dict_get_set (d : dict) (k k' : pystr) (v default : Z) :
  dict_get (dict_set d k v) k' default
  = if Str.eqb k k' then v else dict_get d k' default.
Proof.
  induction d as [|[k0 v0] d IH]; simpl; [reflexivity|].
  destruct (str_eqb_spec k0 k) as [->|Hk]; simpl.
  - destruct (Str.eqb k k'); reflexivity.
  - rewrite IH. destruct (str_eqb_spec k0 k') as [->|Hk']; [|reflexivity].
    destruct (str_eqb_spec k k'); [congruence | reflexivity].
Qed.

Lemma dict_set_keys (d : dict) (k : pystr) (v : Z) :
  (In k (map fst d) /\ map fst (dict_set d k v) = map fst d)
  \/ (~ In k (map fst d) /\ map fst (dict_set d k v) = map fst d ++ [k]).
Proof.
  induction d as [|[k0 v0] d IH]; simpl.
  - right. split; [tauto | reflexivity].
  - destruct (str_eqb_spec k0 k) as [->|Hk]; simpl.
    + left. split; [left; reflexivity | reflexivity].
    + destruct IH as [[Hin E] | [Hin E]]; rewrite E.
      * left. split; [right; exact Hin | reflexivity].
      * right. split; [tauto | reflexivity].
Qed.

Lemma dict_set_sum (d : dict) (k : pystr) :
  fold_right Z.add 0 (map snd (dict_set d k (dict_get d k 0 + 1)))
  = fold_right Z.add 0 (map snd d) + 1.
Proof.
  induction d as [|[k0 v0] d IH]; simpl; [reflexivity|].
  destruct (Str.eqb k0 k); simpl; [lia | rewrite IH; lia].
Qed.

Lemma dict_get_In (d : dict) (k : pystr) (default : Z) :
  In k (map fst d) -> In (k, dict_get d k default) d.
Proof.
  induction d as [|[k0 v0] d IH]; simpl; [tauto|].
  destruct (str_eqb_spec k0 k) as [->|Hk]; [left; reflexivity|].
  intros [H | H]; [congruence | right; exact (IH H)].
Qed.

Lemma dict_In_get (d : dict) (k : pystr) (v default : Z) :
  NoDup (map fst d) -> In (k, v) d -> dict_get d k default = v.
Proof.
  induction d as [|[k0 v0] d IH]; simpl; [tauto|].
  intros Hnd [H | H].
  - injection H as -> ->. rewrite str_eqb_refl. reflexivity.
  - inversion Hnd as [|? ? Hnot Hnd']; subst.
    destruct (str_eqb_spec k0 k) as [->|Hk]; [|exact (IH Hnd' H)].
    exfalso. apply Hnot. change k with (fst (k, v)). apply in_map, H.
Qed.

Lemma occurrences_cons (key : Prompt.t -> pystr) (k : pystr) (p : Prompt.t)
    (prompts : list Prompt.t) :
  occurrences key k (p :: prompts)
  = (if Str.eqb (key p) k then 1 else 0) + occurrences key k prompts.
Proof.
  unfold occurrences. simpl. destruct (Str.eqb (key p) k); simpl List.length; lia.
Qed.

Lemma occurrences_pos (key : Prompt.t -> pystr) (k : pystr)
    (prompts : list Prompt.t) :
  0 < occurrences key k prompts <-> In k (map key prompts).
Proof.
  induction prompts as [|p l IH]; [simpl; unfold occurrences; simpl; lia|].
  rewrite occurrences_cons. simpl.
  assert (0 <= occurrences key k l) by (unfold occurrences; lia).
  destruct (str_eqb_spec (key p) k) as [E|E]; [split; [tauto | lia]|].
  rewrite <- IH. split; [intros; right; lia | intros [|]; [contradiction | lia]].
Qed.

(** The state of a counting loop that has started from the dictionary [d]. *)
Lemma counting_loop (key : Prompt.t -> pystr) (prompts : list Prompt.t) :
  forall d : dict,
    let d' :=
      fold_left (fun counts p =>
                   dict_set counts (key p) (dict_get counts (key p) 0 + 1))
                prompts d in
    (forall k, dict_get d' k 0 = dict_get d k 0 + occurrences key k prompts)
    /\ (NoDup (map fst d) -> NoDup (map fst d'))
    /\ (forall k, In k (map fst d')
                  <-> In k (map fst d) \/ In k (map key prompts))
    /\ fold_right Z.add 0 (map snd d')
       = fold_right Z.add 0 (map snd d) + Z.of_nat (List.length prompts)
    /\ exists more, map fst d' = map fst d ++ more.
Proof.
  induction prompts as [|p l IH]; intros d; simpl.
  - split; [|split; [|split; [|split]]].
    + intros k. unfold occurrences. simpl. lia.
    + tauto.
    + intros k. tauto.
    + lia.
    + exists []. rewrite app_nil_r. reflexivity.
  - set (d1 := dict_set d (key p) (dict_get d (key p) 0 + 1)).
    destruct (IH d1) as (G & N & I & S & more & M).
    assert (K := dict_set_keys d (key p) (dict_get d (key p) 0 + 1)).
    fold d1 in K. split; [|split; [|split; [|split]]].
    + intros k. rewrite G, occurrences_cons. unfold d1.
      rewrite dict_get_set. destruct (str_eqb_spec (key p) k) as [<-|]; lia.
    + intros Hnd. apply N.
      destruct K as [[_ ->] | [Hnot ->]]; [exact Hnd|].
      apply NoDup_app; [exact Hnd | repeat constructor; simpl; tauto|].
      intros a Ha [<- | []]. exact (Hnot Ha).
    + intros k. rewrite I.
      destruct K as [[Hin E] | [Hnot E]]; rewrite E.
      * split; [tauto|]. intros [H | [<- | H]]; tauto.
      * rewrite in_app_iff. simpl. tauto.
    + rewrite S. unfold d1. rewrite dict_set_sum. lia.
    + rewrite M. destruct K as [[_ ->] | [_ ->]].
      * exists more. reflexivity.
      * exists (key p :: more). rewrite <- app_assoc. reflexivity.
Qed.

Lemma count_by_keys (key : Prompt.t -> pystr) (prompts : list Prompt.t) :
  NoDup (map fst (count_by key prompts))
  /\ forall k, In k (map fst (count_by key prompts)) <-> In k (map key prompts).
Proof.
  unfold count_by.
  destruct (counting_loop key prompts []) as (_ & N & I & _).
  simpl in *. split; [exact (N (NoDup_nil _))|].
  intros k. rewrite I. tauto.
Qed.

Lemma count_by_get (key : Prompt.t -> pystr) (prompts : list Prompt.t)
    (k : pystr) :
  dict_get (count_by key prompts) k 0 = occurrences key k prompts.
Proof.
  unfold count_by.
  destruct (counting_loop key prompts []) as (G & _). simpl in G. apply G.
Qed.

Lemma count_by_In (key : Prompt.t -> pystr) (prompts : list Prompt.t)
    (k : pystr) (v : Z) :
  In (k, v) (count_by key prompts)
  <-> v = occurrences key k prompts /\ 0 < v.
Proof.
  destruct (count_by_keys key prompts) as [N I]. split.
  - intros Hin.
    assert (Hv : v = occurrences key k prompts)
      by (rewrite <- count_by_get; symmetry; exact (dict_In_get _ _ _ 0 N Hin)).
    split; [exact Hv|]. rewrite Hv. apply occurrences_pos, I.
    change k with (fst (k, v)). apply in_map, Hin.
  - intros [-> Hpos]. rewrite <- count_by_get. apply dict_get_In, I.
    apply occurrences_pos, Hpos.
Qed.

(** X6.  The counts per category and per author.  The dictionary has each value
    of the key once, in the order of its first record; the count beside it
    is the number of records with that value, which is at least 1; a value
    no record has is not in it; and the counts add up to the number of
    records. *)
Theorem count_by_counts_records (key : Prompt.t -> pystr)
    (prompts : list Prompt.t) :
  let counts := count_by key prompts in
  NoDup (map fst counts)
  /\ (forall k v,
        In (k, v) counts <-> v = occurrences key k prompts /\ 0 < v)
  /\ (forall k, dict_get counts k 0 = occurrences key k prompts)
  /\ fold_right Z.add 0 (map snd counts) = total_prompts prompts
  /\ (forall earlier later,
        prompts = earlier ++ later ->
        exists more,
          map fst counts = map fst (count_by key earlier) ++ more).
Proof.
  intros counts. subst counts.
  split; [apply count_by_keys|]. split; [apply count_by_In|].
  split; [apply count_by_get|]. split.
  - unfold count_by.
    destruct (counting_loop key prompts []) as (_ & _ & _ & S & _). exact S.
  - intros earlier later ->. unfold count_by. rewrite fold_left_app.
    destruct (counting_loop key later
                (fold_left (fun counts p =>
                              dict_set counts (key p)
                                       (dict_get counts (key p) 0 + 1))
                           earlier [])) as (_ & _ & _ & _ & more & M).
    exists more. exact M.
Qed.

(** X7.  The number of contributors of the sidebar is the number of entries of
    the dictionary of authors, and lies between 0 and the number of
    prompts; it is 0 only for the empty collection. *)
Theorem contributors_are_the_counted_authors (prompts : list Prompt.t) :
  contributors prompts = Z.of_nat (List.length (author_counts prompts))
  /\ 0 <= contributors prompts <= total_prompts prompts
  /\ (contributors prompts = 0 <-> prompts = []).
Proof.
  unfold contributors, distinct, total_prompts, author_counts.
  destruct (count_by_keys Prompt.author prompts) as [N I].
  split; [|split].
  - rewrite <- (length_map fst (count_by Prompt.author prompts)). f_equal.
    apply Permutation_length, NoDup_Permutation; [apply NoDup_nodup | exact N|].
    intros a. rewrite nodup_In, I. tauto.
  - split; [lia|]. apply inj_le.
    rewrite <- (length_map Prompt.author prompts).
    apply NoDup_incl_length; [apply NoDup_nodup|].
    intros a Ha. apply nodup_In in Ha. exact Ha.
  - destruct prompts as [|p l]; [simpl; tauto|].
    split; [|discriminate]. intros H. exfalso.
    assert (Hin : In (Prompt.author p)
                     (nodup pystr_eq_dec (map Prompt.author (p :: l))))
      by (apply nodup_In; left; reflexivity).
    destruct (nodup pystr_eq_dec (map Prompt.author (p :: l)));
      [exact Hin | simpl in H; lia].
Qed.

Lemma has_author_In (author : pystr) (prompts : list Prompt.t) :
  has_author author prompts = true <-> In author (map Prompt.author prompts).
Proof.
  unfold has_author. rewrite existsb_exists, in_map_iff.
  split; intros (p & H1 & H2).
  - exists p. apply str_eqb_eq in H2. tauto.
  - exists p. rewrite str_eqb_eq. tauto.
Qed.

(** One more element is one more distinct element when it is new. *)
Lemma distinct_snoc_length (l : list pystr) (a : pystr) :
  List.length (distinct (l ++ [a]))
  = (List.length (distinct l) + (if in_dec pystr_eq_dec a l then 0 else 1))%nat.
Proof.
  unfold distinct. induction l as [|y l IH]; [reflexivity|].
  simpl app. simpl nodup.
  destruct (in_dec pystr_eq_dec y (l ++ [a])) as [Hy|Hy],
           (in_dec pystr_eq_dec y l) as [Hy'|Hy'],
           (in_dec pystr_eq_dec a (y :: l)) as [Ha|Ha],
           (in_dec pystr_eq_dec a l) as [Ha'|Ha'];
    simpl List.length; rewrite ?IH;
    destruct (in_dec pystr_eq_dec a l); try lia; try contradiction;
    exfalso.
  all: rewrite ?in_app_iff in *; simpl in *;
    repeat match goal with
           | H : _ \/ _ |- _ => destruct H
           | H : ~ (_ \/ _) |- _ => apply Decidable.not_or in H; destruct H
           end; subst; tauto.
Qed.

(** X8.  [add_prompt] makes the number of prompts one greater and leaves the
    total usage and the average rating as they are; there is one more
    contributor when the author had no prompt yet, and the count of the
    prompt's category, and of no other, is one greater. *)
Theorem add_prompt_changes_metrics
    (builtin_sum : list pynum -> res pynum)
    now title category prompt author tags (s : store) :
  let before := collection s in
  let after :=
    collection (exec (add_prompt now title category prompt author tags) s) in
  total_prompts after = total_prompts before + 1
  /\ total_usage after = total_usage before
  /\ contributors after
     = contributors before + (if has_author author before then 0 else 1)
  /\ avg_rating builtin_sum after = avg_rating builtin_sum before
  /\ forall c,
       dict_get (category_counts after) c 0
       = dict_get (category_counts before) c 0
         + (if Str.eqb category c then 1 else 0).
Proof.
  intros before after. subst before after. run_store. simpl collection.
  set (l := collection s). split; [|split; [|split; [|split]]].
  - unfold total_prompts. rewrite length_app. simpl. lia.
  - rewrite total_usage_app, total_usage_cons. simpl. unfold total_usage. simpl.
    lia.
  - unfold contributors. rewrite map_app. simpl map.
    rewrite distinct_snoc_length.
    destruct (in_dec pystr_eq_dec author (map Prompt.author l)) as [Hin|Hin].
    + apply has_author_In in Hin. rewrite Hin. lia.
    + destruct (has_author author l) eqn:E; [|lia].
      apply has_author_In in E. contradiction.
  - unfold avg_rating. rewrite existsb_app, filter_app. simpl.
    rewrite orb_false_r, app_nil_r. reflexivity.
  - intros c. unfold category_counts, count_by. rewrite fold_left_app. simpl.
    rewrite dict_get_set. simpl Prompt.category.
    destruct (str_eqb_spec category c) as [<-|]; lia.
Qed.

(** ** The ranked lists of the "Statistics" page *)

Lemma sorted_by_int_key {A} (key : A -> Z) (l : list A) :
  let sorted := sorted_reverse key Z.ltb l in
  Permutation l sorted
  /\ descending key Z.ltb sorted
  /\ stable key Z.eqb l sorted.
Proof.
  split; [apply sorted_reverse_perm|]. split.
  - apply (sorted_reverse_descending _ _ (fun _ => True)).
    + intros a b _ _. rewrite Z.ltb_lt, Z.ltb_ge. lia.
    + intros a b c _ _ _. rewrite !Z.ltb_ge. lia.
    + apply Forall_forall. intros; exact I.
  - intros k. apply sorted_reverse_filter. intros a b _ _ Ha Hb.
    apply Z.eqb_eq in Ha, Hb. rewrite Ha, Hb. apply Z.ltb_irrefl.
Qed.

(** X9.  The categories are listed with their counts in descending order of the
    count, categories of equal count in the order of their first prompt.
    The top contributors are the first five authors of the same ranking (all
    of them when there are fewer): each with the number of prompts of that
    author, and no author left out has more prompts than one of the list. *)
Theorem count_lists_are_ranked (prompts : list Prompt.t) :
  (let shown := categories_by_count prompts in
   Permutation (category_counts prompts) shown
   /\ descending snd Z.ltb shown
   /\ stable snd Z.eqb (category_counts prompts) shown
   /\ forall c n, In (c, n) shown
                  <-> n = occurrences Prompt.category c prompts /\ 0 < n)
  /\ (let top := top_contributors prompts in
      List.length top = Nat.min 5 (List.length (author_counts prompts))
      /\ descending snd Z.ltb top
      /\ (forall a n, In (a, n) top ->
                      n = occurrences Prompt.author a prompts /\ 0 < n)
      /\ exists rest,
           Permutation (author_counts prompts) (top ++ rest)
           /\ forall a n b m, In (a, n) top -> In (b, m) rest -> m <= n).
Proof.
  split.
  - destruct (sorted_by_int_key snd (category_counts prompts)) as (P & D & S).
    split; [exact P|]. split; [exact D|]. split; [exact S|].
    intros c n. rewrite <- count_by_In. split; apply Permutation_in;
      [apply Permutation_sym|]; exact P.
  - destruct (sorted_by_int_key snd (author_counts prompts)) as (P & D & _).
    unfold top_contributors.
    rewrite <- (firstn_skipn 5) in D. apply descending_app in D.
    destruct D as [D H].
    split; [|split; [exact D|split]].
    + rewrite length_firstn, <- (Permutation_length P). reflexivity.
    + intros a n Hin. apply in_firstn in Hin.
      apply (Permutation_in _ (Permutation_sym P)) in Hin.
      apply count_by_In, Hin.
    + exists (skipn 5 (sorted_reverse snd Z.ltb (author_counts prompts))).
      rewrite firstn_skipn. split; [exact P|].
      intros a n b m Ha Hb. apply Z.ltb_ge. exact (H _ _ Ha Hb).
Qed.

(** ** What every series of mutator calls keeps *)

Lemma run_call_collection (c : call) (s : store) :
  collection (run_call c s)
  = match c with
    | AddPrompt now title category prompt author tags =>
        collection s
        ++ [Prompt.mk (Z.of_nat (List.length (collection s)) + 1)
                      title category prompt author tags (PyInt 0) 0 0 now []]
    | UpdateUsage prompt_id => update_usage_loop prompt_id (collection s)
    | AddRating prompt_id rating =>
        match add_rating_loop prompt_id rating (collection s) with
        | Ok prompts' => prompts'
        | Raise _ => collection s
        end
    end.
Proof.
  destruct c; unfold run_call; run_store; [reflexivity | reflexivity |].
  destruct (add_rating_loop prompt_id rating (collection s)); reflexivity.
Qed.

Lemma ids_in_sequence_ext (l l' : list Prompt.t) :
  map Prompt.id l' = map Prompt.id l ->
  ids_in_sequence l -> ids_in_sequence l'.
Proof.
  unfold ids_in_sequence. intros E H.
  rewrite E, H, <- (length_map Prompt.id l'), E, length_map. reflexivity.
Qed.

Lemma run_call_ids_in_sequence (c : call) (s : store) :
  ids_in_sequence (collection s) -> ids_in_sequence (collection (run_call c s)).
Proof.
  intros H. rewrite run_call_collection. destruct c.
  - apply ids_in_sequence_snoc; [exact H | reflexivity].
  - apply (ids_in_sequence_ext (collection s)); [|exact H].
    apply update_usage_loop_map. reflexivity.
  - destruct (add_rating_loop prompt_id rating (collection s)) as [l'|e] eqn:E;
      [|exact H].
    apply (ids_in_sequence_ext (collection s)); [|exact H].
    apply (add_rating_loop_map Prompt.id _ _ _ _ (fun _ _ _ => eq_refl) E).
Qed.

Lemma ids_in_sequence_NoDup (prompts : list Prompt.t) :
  ids_in_sequence prompts ->
  NoDup (map Prompt.id prompts)
  /\ forall p, In p prompts ->
               1 <= Prompt.id p <= Z.of_nat (List.length prompts).
Proof.
  unfold ids_in_sequence. intros H. split.
  - rewrite H. apply Finite.Injective_map_NoDup; [|apply seq_NoDup].
    intros a b. apply Nat2Z.inj.
  - intros p Hp. apply (in_map Prompt.id) in Hp. rewrite H in Hp.
    apply in_map_iff in Hp. destruct Hp as (n & <- & Hn).
    apply in_seq in Hn. lia.
Qed.

Lemma run_calls_ids_in_sequence (calls : list call) (s : store) :
  ids_in_sequence (collection s) ->
  ids_in_sequence (collection (run_calls calls s)).
Proof.
  unfold run_calls. revert s.
  induction calls as [|c calls IH]; intros s H; [exact H|].
  simpl. apply IH, run_call_ids_in_sequence, H.
Qed.

(** X10.  When the ids of the file are 1..n in order (as in an empty or absent
    file), they still are after any series of calls of [add_prompt],
    [update_usage] and [add_rating]: every id is unique and lies between 1
    and the number of prompts. *)
Theorem mutators_keep_ids_in_sequence (calls : list call) (s : store) :
  ids_in_sequence (collection s) ->
  let prompts := collection (run_calls calls s) in
  ids_in_sequence prompts
  /\ NoDup (map Prompt.id prompts)
  /\ forall p, In p prompts ->
               1 <= Prompt.id p <= Z.of_nat (List.length prompts).
Proof.
  intros H. pose proof (run_calls_ids_in_sequence calls s H) as G.
  split; [exact G | apply ids_in_sequence_NoDup, G].
Qed.

Lemma mutators_keep_ids_in_sequence_witness :
  let prompts :=
    collection
      (run_calls [AddPrompt noon (str "T") (str "Testing") (str "body")
                            (str "Alice") [];
                  AddRating 1 5; UpdateUsage 1; AddRating 7 2]
                 None) in
  ids_in_sequence prompts
  /\ NoDup (map Prompt.id prompts)
  /\ forall p, In p prompts ->
               1 <= Prompt.id p <= Z.of_nat (List.length prompts).
Proof.
  apply (mutators_keep_ids_in_sequence
           [AddPrompt noon (str "T") (str "Testing") (str "body")
                      (str "Alice") [];
            AddRating 1 5; UpdateUsage 1; AddRating 7 2] None).
  reflexivity.
Defined.

Lemma later_state_refl (p : Prompt.t) : later_state p p.
Proof. unfold later_state. repeat split; lia. Qed.

Lemma later_state_trans (p q r : Prompt.t) :
  later_state p q -> later_state q r -> later_state p r.
Proof.
  unfold later_state, same_but_rating_votes. destruct p, q, r. simpl.
  intros (A & ? & ?) (B & ? & ?).
  destruct A as (A1 & A2 & A3 & A4 & A5 & A6 & A7 & A8 & A9).
  destruct B as (B1 & B2 & B3 & B4 & B5 & B6 & B7 & B8 & B9).
  repeat split; try congruence; lia.
Qed.

Lemma Forall2_refl_on {A} (R : A -> A -> Prop) (l : list A) :
  (forall x, R x x) -> Forall2 R l l.
Proof. intros H. induction l; constructor; auto. Qed.

Lemma Forall2_trans_on {A} (R : A -> A -> Prop) (l1 l2 l3 : list A) :
  (forall x y z, R x y -> R y z -> R x z) ->
  Forall2 R l1 l2 -> Forall2 R l2 l3 -> Forall2 R l1 l3.
Proof.
  intros HR H. revert l3. induction H as [|x y l1 l2 Hxy _ IH]; intros l3 H3.
  - inversion H3. constructor.
  - inversion H3 as [|? z ? l3' Hyz H3']; subst.
    constructor; [exact (HR _ _ _ Hxy Hyz) | exact (IH _ H3')].
Qed.

Lemma grown_from_trans (l1 l2 l3 : list Prompt.t) :
  grown_from l1 l2 -> grown_from l2 l3 -> grown_from l1 l3.
Proof.
  intros (k2 & a2 & -> & H12) (k3 & a3 & -> & H23).
  apply Forall2_app_inv_l in H23.
  destruct H23 as (k3a & k3b & Ha & Hb & ->).
  exists k3a, (k3b ++ a3). split; [symmetry; apply app_assoc|].
  exact (Forall2_trans_on _ _ _ _ later_state_trans H12 Ha).
Qed.

Lemma update_usage_loop_later (prompt_id : Z) (prompts : list Prompt.t) :
  Forall2 later_state prompts (update_usage_loop prompt_id prompts).
Proof.
  induction prompts as [|p l IH]; simpl; [constructor|].
  destruct (Prompt.id p =? prompt_id).
  - constructor; [|apply Forall2_refl_on, later_state_refl].
    unfold later_state. simpl. repeat split; lia.
  - constructor; [apply later_state_refl | exact IH].
Qed.

Lemma add_rating_loop_later (prompt_id rating : Z)
    (prompts prompts' : list Prompt.t) :
  add_rating_loop prompt_id rating prompts = Ok prompts' ->
  Forall2 later_state prompts prompts'.
Proof.
  revert prompts'. induction prompts as [|p l IH]; simpl; intros l' H.
  - injection H as <-. constructor.
  - destruct (Prompt.id p =? prompt_id).
    + unfold rate in H.
      destruct (new_rating _ _ _) as [x|e]; simpl in H; [|discriminate].
      injection H as <-.
      constructor; [|apply Forall2_refl_on, later_state_refl].
      unfold later_state. simpl. repeat split; lia.
    + destruct (add_rating_loop prompt_id rating l) as [l0|e]; simpl in H;
        [|discriminate].
      injection H as <-. constructor; [apply later_state_refl | exact (IH _ eq_refl)].
Qed.

Lemma run_call_grows (c : call) (s : store) :
  grown_from (collection s) (collection (run_call c s)).
Proof.
  rewrite run_call_collection. destruct c.
  - eexists _, _. split; [reflexivity|].
    apply Forall2_refl_on, later_state_refl.
  - exists (update_usage_loop prompt_id (collection s)), [].
    split; [symmetry; apply app_nil_r | apply update_usage_loop_later].
  - destruct (add_rating_loop prompt_id rating (collection s)) as [l'|e] eqn:E.
    + exists l', []. split; [symmetry; apply app_nil_r|].
      exact (add_rating_loop_later _ _ _ _ E).
    + exists (collection s), []. split; [symmetry; apply app_nil_r|].
      apply Forall2_refl_on, later_state_refl.
Qed.

(** X11.  No series of calls of the mutators removes or reorders a record, or
    changes its id, title, category, prompt, author, tags, creation time or
    comments, or makes its votes or its usage counter smaller: the old
    records are at their places, followed by the new ones. *)
Theorem mutators_only_grow_the_collection (calls : list call) (s : store) :
  grown_from (collection s) (collection (run_calls calls s)).
Proof.
  unfold run_calls. revert s. induction calls as [|c calls IH]; intros s.
  - exists (collection s), []. split; [symmetry; apply app_nil_r|].
    apply Forall2_refl_on, later_state_refl.
  - simpl. apply (grown_from_trans _ (collection (run_call c s)));
      [apply run_call_grows | apply IH].
Qed.

(** ** Usage tracking and rating do not interfere *)

Lemma rate_set_usage_count (p : Prompt.t) (n rating : Z) :
  rate (Prompt.set_usage_count p n) rating
  = res_bind (rate p rating) (fun p' => Ok (Prompt.set_usage_count p' n)).
Proof.
  unfold rate. simpl.
  destruct (new_rating (Prompt.rating p) (Prompt.votes p) rating); reflexivity.
Qed.

Lemma rate_id (p p' : Prompt.t) (rating : Z) :
  rate p rating = Ok p' ->
  Prompt.id p' = Prompt.id p /\ Prompt.usage_count p' = Prompt.usage_count p.
Proof.
  unfold rate. destruct (new_rating _ _ _); simpl; [|discriminate].
  intros [= <-]. split; reflexivity.
Qed.

Lemma add_rating_loop_after_update_usage_loop
    (usage_id rating_id rating : Z) (prompts : list Prompt.t) :
  add_rating_loop rating_id rating (update_usage_loop usage_id prompts)
  = res_bind (add_rating_loop rating_id rating prompts)
             (fun prompts' => Ok (update_usage_loop usage_id prompts')).
Proof.
  induction prompts as [|p l IH]; [reflexivity|]. simpl.
  destruct (Prompt.id p =? usage_id) eqn:Eu, (Prompt.id p =? rating_id) eqn:Er;
    simpl; rewrite ?Eu, ?Er.
  - rewrite rate_set_usage_count.
    destruct (rate p rating) as [p'|e] eqn:R; simpl; [|reflexivity].
    destruct (rate_id _ _ _ R) as [Hid Hu]. rewrite Hid, Eu, Hu. reflexivity.
  - destruct (add_rating_loop rating_id rating l); simpl; rewrite ?Eu;
      reflexivity.
  - destruct (rate p rating) as [p'|e] eqn:R; simpl; [|reflexivity].
    destruct (rate_id _ _ _ R) as [Hid _]. rewrite Hid, Eu. reflexivity.
  - rewrite IH. destruct (add_rating_loop rating_id rating l); simpl;
      rewrite ?Eu; reflexivity.
Qed.

(** X12.  Counting a usage and then rating gives the same collection as rating
    and then counting the usage, for any two ids, also for the same one; and
    the rating raises after the usage has been counted exactly when it
    raises before. *)
Theorem update_usage_and_add_rating_commute
    (s : store) (usage_id rating_id rating : Z) :
  collection (exec (add_rating rating_id rating)
                   (exec (update_usage usage_id) s))
  = collection (exec (update_usage usage_id)
                     (exec (add_rating rating_id rating) s))
  /\ result (add_rating rating_id rating) (exec (update_usage usage_id) s)
     = result (add_rating rating_id rating) s.
Proof.
  run_store. simpl collection.
  rewrite add_rating_loop_after_update_usage_loop.
  destruct (add_rating_loop rating_id rating (collection s)) as [l'|e];
    simpl; split; reflexivity.
Qed.

(** ** The buttons of a displayed prompt *)

Lemma NoDup_first_with_id (before after : list Prompt.t) (p : Prompt.t) :
  NoDup (map Prompt.id (before ++ p :: after)) ->
  first_with_id (Prompt.id p) before p.
Proof.
  intros H. split; [|reflexivity]. apply Forall_forall. intros q Hq E.
  rewrite map_app in H. simpl in H. apply NoDup_remove_2 in H. apply H.
  apply in_or_app. left. rewrite <- E. apply in_map, Hq.
Qed.

(** X13.  When the ids of the collection are unique, "Copy" on a displayed prompt
    adds 1 to the usage counter of that very record, and "Submit Rating"
    rates that very record; all other records stay as they are. *)
Theorem buttons_act_on_the_displayed_prompt
    (s : store) (before after : list Prompt.t) (prompt : Prompt.t) (rating : Z) :
  collection s = before ++ prompt :: after ->
  NoDup (map Prompt.id (collection s)) ->
  collection (exec (on_copy prompt) s)
  = before
    ++ Prompt.set_usage_count prompt (Prompt.usage_count prompt + 1) :: after
  /\ match rate prompt rating with
     | Ok rated =>
         result (on_submit_rating prompt rating) s = Ok tt
         /\ collection (exec (on_submit_rating prompt rating) s)
            = before ++ rated :: after
     | Raise e =>
         result (on_submit_rating prompt rating) s = Raise e
         /\ exec (on_submit_rating prompt rating) s = s
     end.
Proof.
  intros Hs Hnd. rewrite Hs in Hnd.
  pose proof (NoDup_first_with_id _ _ _ Hnd) as Hfirst.
  unfold on_copy, on_submit_rating. run_store. rewrite Hs.
  rewrite (update_usage_loop_first _ _ _ _ Hfirst).
  rewrite (add_rating_loop_first _ rating _ _ _ Hfirst).
  split; [reflexivity|].
  destruct (rate prompt rating); simpl; split; reflexivity.
Qed.

Lemma buttons_act_on_the_displayed_prompt_witness :
  collection (exec (on_copy pytest_suite) (Some library))
  = [api_client]
    ++ Prompt.set_usage_count pytest_suite (Prompt.usage_count pytest_suite + 1)
       :: [fresh_prompt]
  /\ match rate pytest_suite 4 with
     | Ok rated =>
         result (on_submit_rating pytest_suite 4) (Some library) = Ok tt
         /\ collection (exec (on_submit_rating pytest_suite 4) (Some library))
            = [api_client] ++ rated :: [fresh_prompt]
     | Raise e =>
         result (on_submit_rating pytest_suite 4) (Some library) = Raise e
         /\ exec (on_submit_rating pytest_suite 4) (Some library) = Some library
     end.
Proof.
  apply (buttons_act_on_the_displayed_prompt (Some library) [api_client]
           [fresh_prompt] pytest_suite 4).
  - reflexivity.
  - repeat constructor; simpl; intuition discriminate.
Defined.

(** X14.  When an earlier record has the id of the displayed prompt, "Copy" counts
    for that earlier record: the displayed prompt and all records after it
    stay as they are, and the total usage of the records before it is one
    greater. *)
Theorem copy_counts_for_an_earlier_duplicate
    (s : store) (before after : list Prompt.t) (prompt : Prompt.t) :
  collection s = before ++ prompt :: after ->
  In (Prompt.id prompt) (map Prompt.id before) ->
  exists before',
    collection (exec (on_copy prompt) s) = before' ++ prompt :: after
    /\ List.length before' = List.length before
    /\ total_usage before' = total_usage before + 1.
Proof.
  intros Hs Hin. unfold on_copy. run_store. rewrite Hs. simpl collection.
  destruct (first_occurrence _ _ Hin) as (b1 & q & b2 & -> & Hfirst).
  rewrite <- app_assoc. simpl app.
  rewrite (update_usage_loop_first _ _ _ _ Hfirst).
  exists (b1 ++ Prompt.set_usage_count q (Prompt.usage_count q + 1) :: b2).
  split; [rewrite <- app_assoc; reflexivity|]. split.
  - rewrite !length_app. reflexivity.
  - rewrite !total_usage_app, !total_usage_cons. simpl. lia.
Qed.

Lemma copy_counts_for_an_earlier_duplicate_witness :
  exists before',
    collection (exec (on_copy api_client)
                     (Some ([pytest_suite; api_client] ++ api_client :: [])))
    = before' ++ api_client :: []
    /\ List.length before' = List.length [pytest_suite; api_client]
    /\ total_usage before' = total_usage [pytest_suite; api_client] + 1.
Proof.
  apply (copy_counts_for_an_earlier_duplicate
           (Some ([pytest_suite; api_client] ++ api_client :: []))
           [pytest_suite; api_client] [] api_client).
  - reflexivity.
  - simpl. right. left. reflexivity.
Defined.

(** ** The error of a rating *)

Lemma float_of_int_raises (z : Z) (e : exn) :
  float_of_int z = Raise e -> e = OverflowError.
Proof.
  unfold float_of_int.
  destruct (binary_normalize prec emax z 0 false); congruence.
Qed.

Lemma mul_raises (x y : pynum) (e : exn) :
  Num.mul x y = Raise e -> e = OverflowError.
Proof.
  destruct x as [a|f], y as [b|g]; unfold Num.mul; cbn [to_float res_bind];
    try discriminate.
  - destruct (float_of_int a) eqn:E; cbn [res_bind]; [discriminate|].
    intros [= <-]. exact (float_of_int_raises _ _ E).
  - destruct (float_of_int b) eqn:E; cbn [res_bind]; [discriminate|].
    intros [= <-]. exact (float_of_int_raises _ _ E).
Qed.

Lemma add_raises (x y : pynum) (e : exn) :
  Num.add x y = Raise e -> e = OverflowError.
Proof.
  destruct x as [a|f], y as [b|g]; unfold Num.add; cbn [to_float res_bind];
    try discriminate.
  - destruct (float_of_int a) eqn:E; cbn [res_bind]; [discriminate|].
    intros [= <-]. exact (float_of_int_raises _ _ E).
  - destruct (float_of_int b) eqn:E; cbn [res_bind]; [discriminate|].
    intros [= <-]. exact (float_of_int_raises _ _ E).
Qed.

(** With a rating of 1..5 the formula divides by zero exactly when the votes
    are -1. *)
Lemma new_rating_zero_division (old_rating : pynum) (old_votes rating : Z) :
  1 <= rating <= 5 ->
  new_rating old_rating old_votes rating = Raise ZeroDivisionError
  <-> old_votes = -1.
Proof.
  intros Hr. split.
  - intros H. destruct (Z.eq_dec old_votes (-1)) as [|Hv]; [assumption|].
    exfalso. unfold new_rating in H.
    destruct (Num.mul old_rating (PyInt old_votes)) as [a|e] eqn:M;
      cbn [res_bind] in H.
    + destruct (Num.add a (PyInt rating)) as [b|e] eqn:A; cbn [res_bind] in H.
      * revert H. apply truediv_by_nonzero. lia.
      * injection H as ->. apply add_raises in A. discriminate.
    + injection H as ->. apply mul_raises in M. discriminate.
  - intros ->. unfold new_rating. destruct old_rating as [a|f].
    + reflexivity.
    + unfold Num.mul, Num.add, Num.truediv. cbn [to_float res_bind].
      change (float_of_int (-1)) with (Ok (SF2Prim (S754_finite true 4503599627370496 (-52)))).
      cbn [res_bind].
      destruct (float_of_int_small rating) as (g & ->); [lia|].
      reflexivity.
Qed.

(** X15.  With a rating of 1..5, [add_rating] raises [ZeroDivisionError] exactly
    when the first record with the id has [votes == -1]; the file is then
    left as it was. *)
Theorem add_rating_zero_division
    (s : store) (prompt_id rating : Z) (before after : list Prompt.t)
    (p : Prompt.t) :
  1 <= rating <= 5 ->
  collection s = before ++ p :: after ->
  first_with_id prompt_id before p ->
  (result (add_rating prompt_id rating) s = Raise ZeroDivisionError
   <-> Prompt.votes p = -1)
  /\ (Prompt.votes p = -1 -> exec (add_rating prompt_id rating) s = s).
Proof.
  intros Hr Hs Hfirst. run_store. rewrite Hs.
  rewrite (add_rating_loop_first _ rating _ _ _ Hfirst).
  pose proof (new_rating_zero_division (Prompt.rating p) (Prompt.votes p)
                rating Hr) as Z0.
  unfold rate.
  destruct (new_rating (Prompt.rating p) (Prompt.votes p) rating) as [x|e];
    simpl.
  - split.
    + split; [discriminate|]. intros H. apply Z0 in H. discriminate.
    + intros H. apply Z0 in H. discriminate.
  - split; [|reflexivity]. rewrite <- Z0.
    split; intros H; injection H as ->; reflexivity.
Qed.

Lemma add_rating_zero_division_witness :
  (result (add_rating 3 4)
          (Some ([api_client; pytest_suite]
                 ++ Prompt.set_votes fresh_prompt (-1) :: []))
   = Raise ZeroDivisionError
   <-> Prompt.votes (Prompt.set_votes fresh_prompt (-1)) = -1)
  /\ (Prompt.votes (Prompt.set_votes fresh_prompt (-1)) = -1 ->
      exec (add_rating 3 4)
           (Some ([api_client; pytest_suite]
                  ++ Prompt.set_votes fresh_prompt (-1) :: []))
      = Some ([api_client; pytest_suite]
              ++ Prompt.set_votes fresh_prompt (-1) :: [])).
Proof.
  apply (add_rating_zero_division
           (Some ([api_client; pytest_suite]
                  ++ Prompt.set_votes fresh_prompt (-1) :: []))
           3 4 [api_client; pytest_suite] []
           (Prompt.set_votes fresh_prompt (-1))).
  - lia.
  - reflexivity.
  - split; [|reflexivity]. repeat constructor; discriminate.
Defined.

(** ** The tags of the submit form *)

Lemma split_nonempty (sep : N) (s : pystr) : Str.split sep s <> [].
Proof.
  destruct s as [|c s]; simpl; [discriminate|].
  destruct (c =? sep)%N; [discriminate|].
  destruct (Str.split sep s); discriminate.
Qed.

(** Splitting loses nothing: the pieces joined by the separator are the
    string. *)
Lemma join_split (sep : N) (s : pystr) : join sep (Str.split sep s) = s.
Proof.
  induction s as [|c s IH]; [reflexivity|]. simpl Str.split.
  pose proof (split_nonempty sep s) as Hne.
  destruct (N.eqb_spec c sep) as [->|Hc].
  - destruct (Str.split sep s) as [|w ws]; [contradiction|].
    change (join sep ([] :: w :: ws)) with (sep :: join sep (w :: ws)).
    rewrite IH. reflexivity.
  - destruct (Str.split sep s) as [|w ws]; [contradiction|].
    rewrite <- IH. destruct ws; reflexivity.
Qed.

Lemma split_no_separator (sep : N) (s : pystr) :
  Forall (fun w => ~ In sep w) (Str.split sep s).
Proof.
  induction s as [|c s IH]; simpl; [repeat constructor; tauto|].
  destruct (N.eqb_spec c sep) as [->|Hc].
  - constructor; [simpl; tauto | exact IH].
  - destruct (Str.split sep s) as [|w ws]; [repeat constructor; simpl; tauto|].
    inversion IH as [|? ? Hw Hws]; subst.
    constructor; [|exact Hws]. simpl. intros [H | H]; [congruence | tauto].
Qed.

Lemma lstrip_suffix (s : pystr) : exists pre, s = pre ++ Str.lstrip s.
Proof.
  induction s as [|c s (pre & IH)]; [exists []; reflexivity|]. simpl.
  destruct (Str.ascii_isspace c); [|exists []; reflexivity].
  exists (c :: pre). simpl. f_equal. exact IH.
Qed.

Lemma ascii_strip_part (s : pystr) :
  exists pre post, s = pre ++ Str.ascii_strip s ++ post.
Proof.
  unfold Str.ascii_strip. destruct (lstrip_suffix s) as (pre & Hs).
  destruct (lstrip_suffix (rev (Str.lstrip s))) as (q & Hq).
  exists pre, (rev q). rewrite Hs at 1. f_equal.
  rewrite <- rev_app_distr, <- Hq, rev_involutive. reflexivity.
Qed.

(** X16.  The tags of a submission: for a [strip] that returns a part of its
    argument, as [str.strip] does, every tag is non-empty and has no comma in
    it, and it is the stripped form of one of the pieces between the commas
    of the input; an empty input gives no tags. *)
Theorem parse_tags_gives_clean_tags
    (strip : pystr -> pystr) (tags_input : pystr) :
  (forall s, exists pre post, s = pre ++ strip s ++ post) ->
  Forall (fun tag => tag <> [] /\ ~ In 44%N tag) (parse_tags strip tags_input)
  /\ (forall tag,
        In tag (parse_tags strip tags_input)
        <-> tag <> []
            /\ exists piece,
                 In piece (Str.split 44 tags_input) /\ tag = strip piece)
  /\ parse_tags strip [] = [].
Proof.
  intros Hstrip.
  assert (Htruthy : forall t, Str.truthy t = true <-> t <> []).
  { intros [|c t]; simpl; split; congruence. }
  assert (Hin : forall tag,
             In tag (parse_tags strip tags_input)
             <-> tag <> []
                 /\ exists piece,
                      In piece (Str.split 44 tags_input) /\ tag = strip piece).
  { intros tag. unfold parse_tags. rewrite filter_In, in_map_iff, Htruthy.
    split.
    - intros [(piece & <- & Hp) Hne]. split; [exact Hne|]. exists piece. tauto.
    - intros [Hne (piece & Hp & ->)]. split; [|exact Hne]. exists piece. tauto. }
  split; [|split; [exact Hin|]].
  - apply Forall_forall. intros tag Htag. apply Hin in Htag.
    destruct Htag as [Hne (piece & Hp & ->)]. split; [exact Hne|].
    pose proof (split_no_separator 44 tags_input) as Hsep.
    rewrite Forall_forall in Hsep. intros Hc. apply (Hsep piece Hp).
    destruct (Hstrip piece) as (pre & post & E). rewrite E.
    apply in_or_app. right. apply in_or_app. left. exact Hc.
  - unfold parse_tags. simpl.
    destruct (Hstrip []) as (pre & post & E).
    destruct pre; [|discriminate]. simpl in E.
    destruct (strip []); [reflexivity | discriminate].
Qed.

Lemma parse_tags_gives_clean_tags_witness :
  Forall (fun tag => tag <> [] /\ ~ In 44%N tag)
         (parse_tags ascii_strip (str " python , api,, rest "))
  /\ (forall tag,
        In tag (parse_tags ascii_strip (str " python , api,, rest "))
        <-> tag <> []
            /\ exists piece,
                 In piece (Str.split 44 (str " python , api,, rest "))
                 /\ tag = ascii_strip piece)
  /\ parse_tags ascii_strip [] = [].
Proof.
  apply (parse_tags_gives_clean_tags ascii_strip (str " python , api,, rest ")).
  exact ascii_strip_part.
Defined.

(** ** The seed utility *)

Lemma In_categories (category : pystr) :
  existsb (Str.eqb category) CATEGORIES = true -> In category CATEGORIES.
Proof.
  intros H. apply existsb_exists in H. destruct H as (c & Hc & E).
  apply str_eqb_eq in E. rewrite E. exact Hc.
Qed.

(** X17.  [seed_prompts] replaces whatever the file holds by the five starter
    prompts.  Each of them has a category of the select box of the app, at
    least one vote and a rating between 1 and 5.  Their ids are 1..5, so the
    first prompt submitted afterwards gets the id 6, and after any series of
    mutator calls on the seeded file the ids are still unique. *)
Theorem seed_prompts_gives_a_well_formed_library
    (t1 t2 t3 t4 t5 : pystr) (s : store) (calls : list call) :
  let seeded := exec (seed_prompts t1 t2 t3 t4 t5) s in
  result (seed_prompts t1 t2 t3 t4 t5) s = Ok tt
  /\ collection seeded = SEED_PROMPTS t1 t2 t3 t4 t5
  /\ Forall (fun p =>
               In (Prompt.category p) CATEGORIES
               /\ 0 < Prompt.votes p
               /\ rating_in_range (Prompt.rating p) = true)
            (collection seeded)
  /\ (forall now title category prompt author tags,
        exists new_prompt,
          result (add_prompt now title category prompt author tags) seeded
          = Ok new_prompt
          /\ Prompt.id new_prompt = 6)
  /\ (let prompts := collection (run_calls calls seeded) in
      ids_in_sequence prompts /\ NoDup (map Prompt.id prompts)).
Proof.
  intros seeded.
  change seeded with (Some (SEED_PROMPTS t1 t2 t3 t4 t5)). clear seeded.
  simpl collection.
  split; [reflexivity|]. split; [reflexivity|]. split; [|split].
  - repeat constructor;
      solve [ apply In_categories; vm_compute; reflexivity
            | vm_compute; reflexivity ].
  - intros. eexists. unfold result. rewrite add_prompt_run.
    split; reflexivity.
  - assert (G : ids_in_sequence
                  (collection (run_calls calls
                                 (Some (SEED_PROMPTS t1 t2 t3 t4 t5)))))
      by (apply run_calls_ids_in_sequence; reflexivity).
    split; [exact G | apply ids_in_sequence_NoDup, G].
Qed.

(** ** From the submit form to the browse list *)

Lemma submit_prompt_valid
    (strip : pystr -> pystr) now title category prompt author tags_input
    (s : store) :
  title <> [] -> category <> [] -> prompt <> [] -> author <> [] ->
  let new_prompt :=
    Prompt.mk (Z.of_nat (List.length (collection s)) + 1) title category prompt
              author (parse_tags strip tags_input) (PyInt 0) 0 0 now [] in
  submit_prompt strip now title category prompt author tags_input s
  = (Ok (FormSuccess new_prompt), Some (collection s ++ [new_prompt])).
Proof.
  intros Ht Hc Hp Ha new_prompt. unfold submit_prompt.
  assert (E : forallb Str.truthy [title; category; prompt; author] = true).
  { destruct title, category, prompt, author; try contradiction; reflexivity. }
  cbn [forallb] in E |- *. rewrite E. cbn [negb]. unfold bind.
  rewrite add_prompt_run. reflexivity.
Qed.

(** X18.  A prompt that the form has accepted is in the browse list of its
    category and in that of "All" when nothing is searched for, whatever the
    sort key is. *)
Theorem submitted_prompt_is_listed
    (strip lower : pystr -> pystr) now title category prompt author tags_input
    (sort_by : pystr) (s : store) :
  title <> [] -> category <> [] -> prompt <> [] -> author <> [] ->
  exists new_prompt s',
    submit_prompt strip now title category prompt author tags_input s
    = (Ok (FormSuccess new_prompt), s')
    /\ Prompt.category new_prompt = category
    /\ (exists shown,
          result (browse lower [] category sort_by) s' = Ok shown
          /\ In new_prompt shown)
    /\ (exists shown,
          result (browse lower [] (str "All") sort_by) s' = Ok shown
          /\ In new_prompt shown).
Proof.
  intros Ht Hc Hp Ha. eexists _, _.
  split; [apply (submit_prompt_valid strip); assumption|].
  split; [reflexivity|].
  assert (B : forall category_filter,
             category_filter = str "All" \/ category = category_filter ->
             exists shown,
               result (browse lower [] category_filter sort_by)
                      (Some (collection s
                             ++ [Prompt.mk
                                   (Z.of_nat (List.length (collection s)) + 1)
                                   title category prompt author
                                   (parse_tags strip tags_input) (PyInt 0) 0 0
                                   now []]))
               = Ok shown
               /\ In (Prompt.mk (Z.of_nat (List.length (collection s)) + 1)
                                title category prompt author
                                (parse_tags strip tags_input) (PyInt 0) 0 0
                                now [])
                     shown).
  { intros category_filter Hcf. eexists. split; [reflexivity|].
    apply (Permutation_in _ (sort_prompts_perm _ _)).
    apply filter_search_In. split; [|left; reflexivity].
    apply filter_category_In. split; [|exact Hcf].
    simpl. apply in_or_app. right. left. reflexivity. }
  split; apply B; [right | left]; reflexivity.
Qed.

Lemma submitted_prompt_is_listed_witness :
  exists new_prompt s',
    submit_prompt ascii_strip noon (str "T") (str "Testing") (str "body")
                  (str "Alice") (str "a, b") (Some library)
    = (Ok (FormSuccess new_prompt), s')
    /\ Prompt.category new_prompt = str "Testing"
    /\ (exists shown,
          result (browse ascii_lower [] (str "Testing") (str "Most Used")) s'
          = Ok shown
          /\ In new_prompt shown)
    /\ (exists shown,
          result (browse ascii_lower [] (str "All") (str "Most Used")) s'
          = Ok shown
          /\ In new_prompt shown).
Proof.
  apply (submitted_prompt_is_listed ascii_strip ascii_lower noon (str "T")
           (str "Testing") (str "body") (str "Alice") (str "a, b")
           (str "Most Used") (Some library)); discriminate.
Defined.
